(** * APART tag deduplication: a shallow embedding of [deduplication.py]

    The development follows [src/app/aparts/src/deduplication.py]:
    the conjugation deduplicator, the matrix merger, the deduplication
    orchestrator with its manual phase, the column filters and the
    component-count search of the PCA stage.

    Modelling choices, valid for the whole file:
    - a tag is a [string]; Python's [len] and slicing count characters, and
      so do [String.length] and [substring] on the ASCII tags modelled here;
    - a cell of the item-by-tag matrix is an int64, kept as the integer
      ([Z]) it denotes; sums and additions wrap around as numpy's do; every
      column has the same dtype, so [Series.equals] is equality of the
      values;
    - a dataframe is the ordered list of its columns, each a name with its
      values by row position; column names are unique in a well-formed
      frame ([NoDup (columns df)]), which is the only kind pandas handles
      with the code's [df[name]] accesses;
    - the explained-variance ratios and their running sums are numpy
      float64 values, modelled by the Standard Library's specification of
      binary64 ([SpecFloat]) with its rounding, infinities and NaN;
    - the clustering of scikit-learn and the PCA fit are outside the
      repository: their results enter as parameters, the clustering with
      the [ValueError] it raises as the result [None]. *)

From Stdlib Require Import ZArith QArith Ascii String List Sorted Permutation Lia Bool
  SpecFloat.
From stdpp Require Import base option list gmap strings.

Local Open Scope Z_scope.

(** ** Python built-ins used by the module *)

(** [sorted(l, key=key, reverse=True)]: a stable sort, largest key first;
    elements with equal keys keep the order they have in [l]. *)
Fixpoint insert_desc {A : Type} (key : A -> Z) (x : A) (l : list A) : list A :=
  match l with
  | [] => [x]
  | y :: l' => if key x <? key y then y :: insert_desc key x l' else x :: l
  end.

Definition sorted_desc {A : Type} (key : A -> Z) (l : list A) : list A :=
  foldr (insert_desc key) [] l.

(** [word.startswith(p)] *)
Definition startswith (word p : string) : bool := String.prefix p word.

(** [s[:n]] *)
Definition slice_to (n : nat) (s : string) : string := substring 0 n s.

(** [itertools.combinations(l, 2)] *)
Fixpoint combinations2 {A : Type} (l : list A) : list (A * A) :=
  match l with
  | [] => []
  | x :: l' => List.map (fun y => (x, y)) l' ++ combinations2 l'
  end.

(** [c.lower()] on an ASCII character. *)
Definition lower_ascii (c : ascii) : ascii :=
  let n := nat_of_ascii c in
  if (65 <=? n)%nat && (n <=? 90)%nat then ascii_of_nat (n + 32) else c.

(** [s.lower()] *)
Fixpoint lower (s : string) : string :=
  match s with
  | EmptyString => EmptyString
  | String c s' => String (lower_ascii c) (lower s')
  end.

(** ** Conjugation deduplicator *)

(** An element of the (possibly nested) word list: a tag or a sub-list. *)
#[warnings="-register-all"]
Inductive item : Type :=
| Word (w : string)
| Group (ws : list item).

(** [len(x)] for an element of the word list. *)
Definition py_len (x : item) : Z :=
  match x with
  | Word w => Z.of_nat (String.length w)
  | Group ws => Z.of_nat (List.length ws)
  end.

(** What [deduplicate_tag_conjugations] returns: the accumulated pairs when
    [method == "pairs"], the deduplicated (nested) list otherwise. *)
Inductive dedup_result : Type :=
| Pairs (ps : list (string * string))
| Collapsed (l : list item).

Definition result_pairs (r : dedup_result) : list (string * string) :=
  match r with Pairs ps => ps | Collapsed _ => [] end.

Definition result_list (r : dedup_result) : list item :=
  match r with Pairs _ => [] | Collapsed l => l end.

(** The three mutable objects of one call: the set [processed_prefixes]
    (kept as the list of its members in insertion order; a member is never
    inserted twice, since an equal word is a duplicate), the list
    [deduplicated] and the accumulator [deleted_pairs], the last one shared
    with the nested calls. *)
Record loop_state : Type := LoopState {
  processed_prefixes : list string;
  deduplicated : list item;
  deleted_pairs : list (string * string)
}.

Section Conjugations.

(** The order in which Python iterates over a set is not specified: it is
    a parameter, a function of the members in insertion order. *)
Variable set_iter : list string -> list string.

(** [word.startswith(existing_prefix[:len(word)])] *)
Definition is_conjugation (word existing_prefix : string) : bool :=
  startswith word (slice_to (String.length word) existing_prefix).

Definition fresh_state (acc : list (string * string)) : loop_state :=
  LoopState [] [] acc.

(** One iteration of the [for word in sorted_words] loop. [any(...)] holds
    exactly when [next(...)] finds a member, both iterating the same
    unchanged set, so the two are one [find]. For a sub-list the nested
    call runs its own loop over the sorted sub-list with a fresh set and a
    fresh list and the shared accumulator; the sub-list is sorted together
    with the loop bodies of its elements, which keeps the recursion
    structural (see [loop_body_Group]).

    In "pairs" mode the nested call returns the accumulator itself, so
    Python appends an alias of [deleted_pairs] to [deduplicated]; the list
    [deduplicated] is dead in that mode and the model keeps the collapsed
    sub-list in it. *)
Fixpoint loop_body (word : item) (st : loop_state) : loop_state :=
  match word with
  | Group ws =>
      let bodies := List.map (fun w => (w, loop_body w)) ws in
      let sub := fold_left (fun s b => snd b s)
                   (sorted_desc (fun b => py_len (fst b)) bodies)
                   (fresh_state (deleted_pairs st)) in
      LoopState (processed_prefixes st)
                (deduplicated st ++ [Group (deduplicated sub)])
                (deleted_pairs sub)
  | Word w =>
      match List.find (is_conjugation w) (set_iter (processed_prefixes st)) with
      | Some existing_prefix =>
          LoopState (processed_prefixes st)
                    (deduplicated st)
                    (deleted_pairs st ++ [(w, existing_prefix)])
      | None =>
          LoopState (processed_prefixes st ++ [w])
                    (deduplicated st ++ [Word w])
                    (deleted_pairs st)
      end
  end.

(** The body of the function after the default argument is resolved. *)
Definition run_loop (word_list : list item) (acc : list (string * string))
  : loop_state :=
  fold_left (fun st word => loop_body word st)
            (sorted_desc py_len word_list) (fresh_state acc).

(** [deduplicate_tag_conjugations(word_list, method, deleted_pairs)]: the
    returned value and the accumulator as the call leaves it. *)
Definition deduplicate_tag_conjugations (word_list : list item)
    (method : string) (deleted_pairs0 : option (list (string * string)))
  : dedup_result * list (string * string) :=
  let st := run_loop word_list (default [] deleted_pairs0) in
  (if String.eqb method "pairs" then Pairs (deleted_pairs st)
   else Collapsed (deduplicated st),
   deleted_pairs st).

End Conjugations.

(** ** Dataframes *)

Abbreviation column := (list Z).

Abbreviation DataFrame := (list (string * column)).

(** [df.columns] *)
Definition columns (df : DataFrame) : list string := List.map fst df.

(** [name in df.columns] *)
Definition has_column (name : string) (df : DataFrame) : bool :=
  existsb (String.eqb name) (columns df).

(** [df[name]] for a column that is present. *)
Definition get_column (name : string) (df : DataFrame) : option column :=
  snd <$> List.find (fun c => String.eqb name (fst c)) df.

(** [df[name] = data]: replaces the column in place when it is present,
    adds it as the last column otherwise. *)
Definition set_column (name : string) (data : column) (df : DataFrame)
  : DataFrame :=
  if has_column name df
  then List.map (fun c => if String.eqb name (fst c) then (name, data) else c) df
  else df ++ [(name, data)].

(** [df.drop(columns=names)] on names that are present. *)
Definition drop (names : list string) (df : DataFrame) : DataFrame :=
  List.filter (fun c => negb (existsb (String.eqb (fst c)) names)) df.

(** [a.equals(b)] for two columns of one frame. *)
Definition equals (a b : column) : bool := bool_decide (a = b).

(** The value an int64 computation keeps of the integer [z]: numpy
    arithmetic on int64 wraps around silently. *)
Definition wrap64 (z : Z) : Z := (z + 2 ^ 63) mod 2 ^ 64 - 2 ^ 63.

(** [a.add(b, fill_value=0)] for two int64 columns of one frame. *)
Definition add (a b : column) : column :=
  zip_with (fun x y => wrap64 (x + y)) a b.

(** [col.sum()] of an int64 column. *)
Definition sum (col : column) : Z :=
  fold_left (fun acc x => wrap64 (acc + x)) col 0.

(** The cells of a column added up as integers, without wrap-around. *)
Definition column_total (col : column) : Z := fold_right Z.add 0 col.

(** ** Matrix merger *)

(** One pass of the row loop of the strict mode:
    [if sourcedata[i] > 0: sinkdata[i] = sourcedata[i]]. *)
Definition strict_row (sourcedata sinkdata : column) (i : nat) : column :=
  match sourcedata !! i with
  | Some v => if v >? 0 then <[i := v]> sinkdata else sinkdata
  | None => sinkdata
  end.

(** [for i in range(len(sourcedata)): ...] *)
Definition strict_rows (sourcedata sinkdata : column) : column :=
  fold_left (strict_row sourcedata) (seq 0 (List.length sourcedata)) sinkdata.

(** The body of [for pair in pairs_list]. *)
Definition merge_pair (mode : string) (df : DataFrame) (pair : string * string)
  : DataFrame :=
  let '(source, sink) := pair in
  if negb (has_column source df) || negb (has_column sink df) then df
  else
    match get_column source df, get_column sink df with
    | Some sourcedata, Some sinkdata =>
        let df1 :=
          if String.eqb mode "strict"
          then drop [source] (set_column sink (strict_rows sourcedata sinkdata) df)
          else df in
        if String.eqb mode "lenient"
        then (if equals sourcedata sinkdata then drop [source] df1 else df1)
        else df1
    | _, _ => df
    end.

(** [deduplicate_dataframe(dataframe, pairs_list, mode)]: the loop runs on a
    copy, so the function is a function of the frame's value. *)
Definition deduplicate_dataframe (dataframe : DataFrame)
    (pairs_list : list (string * string)) (mode : string) : DataFrame :=
  fold_left (merge_pair mode) pairs_list dataframe.

(** ** Column filters and occurrence counts (values) *)

(** [dataframe.columns[(dataframe == 0).all()]] *)
Definition zero_columns (df : DataFrame) : list string :=
  columns (List.filter (fun c => forallb (Z.eqb 0) (snd c)) df).

(** The frame [drop_0_columns] leaves and returns. *)
Definition drop_0_columns (dataframe : DataFrame) : DataFrame :=
  drop (zero_columns dataframe) dataframe.

(** The body of [for column in binary_columns]. *)
Definition count_column (dataframe : DataFrame) (counts : list (string * Z))
    (column : string) : list (string * Z) :=
  match get_column column dataframe with
  | Some data =>
      let count := sum data in
      if count >? 0 then counts ++ [(column, count)] else counts
  | None => counts
  end.

(** [count_tag_occurrence(dataframe)] *)
Definition count_tag_occurrence (dataframe : DataFrame) : list (string * Z) :=
  let binary_columns := List.tl (columns dataframe) in
  let counts := fold_left (count_column dataframe) binary_columns [] in
  sorted_desc snd counts.

(** The body of [for item, count in counts]. *)
Definition drop_if_unique (filtered_dataframe : DataFrame) (entry : string * Z)
  : DataFrame :=
  let '(item, count) := entry in
  if count =? 1 then drop [item] filtered_dataframe else filtered_dataframe.

(** The frame [drop_unique_columns] returns. *)
Definition drop_unique_columns (Dataframe : DataFrame) : DataFrame :=
  fold_left drop_if_unique (count_tag_occurrence Dataframe) Dataframe.

(** ** Dataframe objects

    [drop_0_columns] works on the object it is given and
    [drop_unique_columns] on a copy: to tell them apart the frames live in a
    store of objects and the functions take and return references. *)
Module Obj.

Abbreviation heap := (gmap nat DataFrame).

(** [df.copy()] *)
Definition copy (r : nat) (h : heap) : option (nat * heap) :=
  df ← h !! r;
  let r' := fresh (dom h) in
  Some (r', <[r' := df]> h).

(** [df.drop(names, axis=1, inplace=True)] *)
Definition drop_inplace (names : list string) (r : nat) (h : heap)
  : option heap :=
  df ← h !! r;
  Some (<[r := drop names df]> h).

(** [drop_0_columns(dataframe)] *)
Definition drop_0_columns (dataframe : nat) (h : heap) : option (nat * heap) :=
  df ← h !! dataframe;
  h' ← drop_inplace (zero_columns df) dataframe h;
  Some (dataframe, h').

(** The body of [for item, count in counts] on the object
    [filtered_dataframe]. *)
Definition drop_if_unique (filtered_dataframe : nat) (oh : option heap)
    (entry : string * Z) : option heap :=
  h ← oh;
  let '(item, count) := entry in
  if count =? 1 then drop_inplace [item] filtered_dataframe h else Some h.

(** [drop_unique_columns(Dataframe)] *)
Definition drop_unique_columns (Dataframe : nat) (h : heap)
  : option (nat * heap) :=
  '(filtered_dataframe, h1) ← copy Dataframe h;
  df ← h1 !! Dataframe;
  let counts := count_tag_occurrence df in
  h2 ← fold_left (drop_if_unique filtered_dataframe) counts (Some h1);
  Some (filtered_dataframe, h2).

End Obj.

(** ** Manual resolution *)

(** The console: the lines the operator will type and what was written. *)
Record console : Type := Console {
  stdin : list string;
  stdout : list string
}.

(** [input(prompt)]: writes the prompt and reads one line; [None] is the
    [EOFError] of an exhausted input. *)
Definition input (prompt : string) (c : console) : option (string * console) :=
  match stdin c with
  | [] => None
  | answer :: rest => Some (answer, Console rest (stdout c ++ [prompt]))
  end.

(** [print(msg)] *)
Definition print (msg : string) (c : console) : console :=
  Console (stdin c) (stdout c ++ [msg]).

Definition merge_prompt (source sink : string) : string :=
  "Merge " +:+ source +:+ " to " +:+ sink +:+ "? (y/n): ".

Definition merged_message (source sink : string) : string :=
  "Merged " +:+ source +:+ " to " +:+ sink.

Definition invalid_message : string :=
  "Input invalid. Please answer with 'y' or 'n'".

(** [manual_deduplication(tuples, dataframe)]: the [for source, sink in
    tuples] loop on the copy; [break] and [return] both leave the loop with
    the copy as it is. *)
Fixpoint manual_deduplication (tuples : list (string * string))
    (deduplicated_dataframe : DataFrame) (c : console)
  : option (DataFrame * console) :=
  match tuples with
  | [] => Some (deduplicated_dataframe, c)
  | (source, sink) :: rest =>
      match get_column source deduplicated_dataframe,
            get_column sink deduplicated_dataframe with
      | Some sourcedata, Some sinkdata =>
          '(line, c1) ← input (merge_prompt source sink) c;
          let answer := lower line in
          if String.eqb answer "y" then
            manual_deduplication rest
              (drop [source]
                 (set_column sink (add sinkdata sourcedata)
                    deduplicated_dataframe))
              (print (merged_message source sink) c1)
          else if String.eqb answer "n" then
            Some (deduplicated_dataframe, c1)
          else if String.eqb answer "q" then
            Some (deduplicated_dataframe, c1)
          else
            manual_deduplication rest deduplicated_dataframe
              (print invalid_message c1)
      | _, _ => manual_deduplication rest deduplicated_dataframe c
      end
  end.

(** ** Deduplication orchestrator *)

(** What iterating over an element of a nested list yields: the members of
    a sub-list, the characters of a string. *)
Definition elements (x : item) : list item :=
  match x with
  | Group ws => ws
  | Word w => List.map (fun ch => Word (String ch EmptyString))
                       (list_ascii_of_string w)
  end.

(** [generate_tuple_combinations(nested_list)] *)
Definition generate_tuple_combinations (nested_list : list item)
  : list (item * item) :=
  flat_map (fun x => combinations2 (elements x)) nested_list.

(** The combinations that name columns: both members are tags. *)
Definition tag_pairs (l : list (item * item)) : list (string * string) :=
  flat_map (fun p => match p with
                     | (Word a, Word b) => [(a, b)]
                     | _ => []
                     end) l.

(** The intermediate values of one run of the orchestrator. *)
Record phases : Type := Phases {
  matrix_deduplicated : DataFrame;
  lenient_argument : DataFrame;
  matrix_deduplicated_lenient : DataFrame;
  matrix_deduplicated_manual : DataFrame;
  console_after : console
}.

Section Orchestrator.

Variable set_iter : list string -> list string.

(** [group_tags_by_dissimilarity(generate_tag_dissimilarity(df),
    df.columns, threshold)]: the Bray-Curtis distances and the
    average-linkage clustering of scikit-learn. [None] is the [ValueError]
    that [pairwise_distances] or [AgglomerativeClustering.fit_predict]
    raises, as they do on a frame with fewer than two columns. *)
Variable group_tags : DataFrame -> Q -> option (list (list string)).

(** [calculate_tag_similarity(Dataframe, method, treshold)[0]]; an
    exception of the clustering leaves the function. *)
Definition calculate_tag_similarity (Dataframe : DataFrame) (method : string)
    (treshold : Q) : option dedup_result :=
  grouped_tags ← group_tags Dataframe treshold;
  Some (fst (deduplicate_tag_conjugations set_iter
               (List.map (fun g => Group (List.map Word g)) grouped_tags)
               method None)).

(** The body of [merge_similar_tags_from_dataframe] from the matrix that
    [generate_binary_item_matrix] delivers; the plot of [show_output] and
    the file of [output] are not modelled. [None] is an exception: the
    [ValueError] of one of the three clusterings, or the [EOFError] of
    [input]. *)
Definition merge_phases (matrix0 : DataFrame) (threshold : Q) (manual : bool)
    (c : console) : option phases :=
  let matrix := drop_0_columns matrix0 in
  deduplicated_tags ←
    result_pairs <$> calculate_tag_similarity matrix "pairs" threshold;
  let matrix_deduplicated :=
    deduplicate_dataframe matrix deduplicated_tags "strict" in
  deduplicated_tags_control ←
    result_list <$> calculate_tag_similarity matrix_deduplicated "" threshold;
  let potential_duplicates :=
    tag_pairs (generate_tuple_combinations deduplicated_tags_control) in
  let lenient_argument := matrix in
  let matrix_deduplicated_lenient :=
    deduplicate_dataframe lenient_argument potential_duplicates "lenient" in
  deduplicated_tags_remaining ←
    result_list
      <$> calculate_tag_similarity matrix_deduplicated_lenient "" threshold;
  let remaining_duplicates :=
    List.filter (fun x => 1 <? py_len x) deduplicated_tags_remaining in
  let remaining_duplicate_tuple :=
    tag_pairs (generate_tuple_combinations remaining_duplicates) in
  '(matrix_deduplicated_manual, c') ←
    (if manual
     then manual_deduplication remaining_duplicate_tuple
            matrix_deduplicated_lenient c
     else Some (matrix_deduplicated_lenient, c));
  Some (Phases matrix_deduplicated lenient_argument
          matrix_deduplicated_lenient matrix_deduplicated_manual c').

(** The value [merge_similar_tags_from_dataframe] returns. *)
Definition merge_similar_tags_from_dataframe (matrix0 : DataFrame)
    (threshold : Q) (manual : bool) (c : console) : option DataFrame :=
  matrix_deduplicated_manual <$> merge_phases matrix0 threshold manual c.

End Orchestrator.

(** ** Variance reducer: the component counts of [plot_pca_tags] *)

(** A numpy [float64] is a binary64 number of IEEE 754, taken here from the
    Standard Library's specification of it ([SpecFloat]): a zero, an
    infinity, NaN, or a sign with a mantissa of at most 53 bits and an
    exponent; operations round to the nearest value, ties to even. *)
Abbreviation double := spec_float.

(** [x + y] on float64 *)
Definition double_add : double -> double -> double := SFadd 53 1024.

(** [x <= y] on float64, the same test as [y >= x]; [False] when one of the
    two is NaN. *)
Definition double_le (x y : double) : bool := SFleb x y.


(** The float64 of a small integer, and the float64 that the decimal
    literal for [n/d] denotes: the value nearest to the quotient. *)
Definition double_of_Z (z : Z) : double := binary_normalize 53 1024 z 0 false.

Definition decimal (n d : Z) : double :=
  SFdiv 53 1024 (double_of_Z n) (double_of_Z d).

(** [np.cumsum(a)]: the running sums, each rounded as it is formed. *)
Fixpoint cumsum_from (acc : double) (a : list double) : list double :=
  match a with
  | [] => []
  | x :: a' => double_add acc x :: cumsum_from (double_add acc x) a'
  end.

Definition cumsum (a : list double) : list double :=
  match a with
  | [] => []
  | x :: a' => x :: cumsum_from x a'
  end.

(** The position of the first [True], if any. *)
Fixpoint first_true (l : list bool) : option nat :=
  match l with
  | [] => None
  | b :: l' => if b then Some 0%nat else S <$> first_true l'
  end.

(** [np.argmax(l)] on a boolean array: the first position of the largest
    value, so position 0 when no entry is [True]; an empty array raises. *)
Definition argmax (l : list bool) : option nat :=
  match l with
  | [] => None
  | _ => Some (default 0%nat (first_true l))
  end.

(** [np.argmax(cumulative_variance >= level) + 1] *)
Definition num_components_for_variance (level : double)
    (cumulative_variance : list double) : option nat :=
  (fun i => (i + 1)%nat) <$> argmax (List.map (double_le level) cumulative_variance).

(** What [plot_pca_tags] computes from the ratios of the fitted PCA. *)
Record variance_summary : Type := VarianceSummary {
  cumulative_variance : list double;
  num_components_for_80_variance : nat;
  num_components_for_95_variance : nat
}.

Definition plot_pca_tags (explained_variance_ratio : list double)
  : option variance_summary :=
  let cumulative_variance := cumsum explained_variance_ratio in
  k80 ← num_components_for_variance (decimal 80 100) cumulative_variance;
  k95 ← num_components_for_variance (decimal 95 100) cumulative_variance;
  Some (VarianceSummary cumulative_variance k80 k95).


(** Largest key first. *)
Definition descending {A : Type} (key : A -> Z) (l : list A) : Prop :=
  StronglySorted (fun a b => (key b <= key a)%Z) l.




(** ** A run of the orchestrator used as an example *)

(** Bray-Curtis distance between two columns, as
    [generate_tag_dissimilarity] computes it for each pair of tags (for
    columns that are not both all zero). *)
Definition bray_curtis (u v : column) : Q :=
  (column_total (zip_with (fun a b => Z.abs (a - b)) u v)
   # Z.to_pos (column_total (zip_with (fun a b => Z.abs (a + b)) u v)))%Q.

Definition example_matrix : DataFrame :=
  [("grow", [1; 0; 1; 0]); ("growth", [1; 1; 1; 0]); ("zebra", [0; 0; 0; 1])].

(** The tag groups of the example: "grow" and "growth" are at distance 1/5
    and each is at distance 1 from "zebra", so with the threshold 0.6 the
    clustering groups "grow" with "growth" wherever both are columns, and
    nothing else; it refuses a frame with fewer than two columns. *)
Definition example_group_tags (df : DataFrame) (threshold : Q)
  : option (list (list string)) :=
  if (List.length df <? 2)%nat then None
  else if has_column "grow" df && has_column "growth" df
       then Some [["grow"; "growth"]] else Some [].

(** ** Tag grouping: [group_tags_by_dissimilarity] after the clustering *)

(** [enumerate(l)] *)
Definition enumerate {A : Type} (l : list A) : list (nat * A) :=
  combine (seq 0 (List.length l)) l.

(** The dict [grouped_columns], kept in insertion order:
    [if cluster_id not in grouped_columns: grouped_columns[cluster_id] = []]
    followed by [grouped_columns[cluster_id].append(col_idx)]. *)
Fixpoint dict_append (cluster_id col_idx : nat) (d : list (nat * list nat))
  : list (nat * list nat) :=
  match d with
  | [] => [(cluster_id, [col_idx])]
  | (k, v) :: d' =>
      if Nat.eqb k cluster_id then (k, v ++ [col_idx]) :: d'
      else (k, v) :: dict_append cluster_id col_idx d'
  end.

(** [for col_idx, cluster_id in enumerate(clusters): ...] *)
Definition grouped_columns (clusters : list nat) : list (nat * list nat) :=
  fold_left (fun d e => dict_append (snd e) (fst e) d) (enumerate clusters) [].

(** [[group for group in grouped_columns.values() if len(group) >= 2]] *)
Definition filtered_groups (clusters : list nat) : list (list nat) :=
  List.filter (fun group => (2 <=? List.length group)%nat)
              (List.map snd (grouped_columns clusters)).

(** [group_tags_by_dissimilarity] from the labels that [fit_predict]
    returned; [None] is the [IndexError] of a label position without a tag
    name. *)
Definition group_tags_by_dissimilarity (clusters : list nat)
    (tag_names : list string) : option (list (list string)) :=
  mapM (mapM (fun col_idx => tag_names !! col_idx)) (filtered_groups clusters).

(** The positions that carry the label [k], in ascending order. *)
Definition positions (k : nat) (clusters : list nat) : list nat :=
  List.map fst (List.filter (fun e => Nat.eqb (snd e) k) (enumerate clusters)).

(** [d.get(k)] on the dict kept as a list. *)
Fixpoint dict_get (k : nat) (d : list (nat * list nat)) : option (list nat) :=
  match d with
  | [] => None
  | (k', v) :: d' => if Nat.eqb k' k then Some v else dict_get k d'
  end.

(** The cells of a frame added up as integers, without wrap-around. *)
Definition total (df : DataFrame) : Z :=
  fold_right Z.add 0 (List.map (fun c => column_total (snd c)) df).

(** No cell of the frame is negative. *)
Definition nonnegative (df : DataFrame) : Prop :=
  Forall (fun c => Forall (fun v => 0 <= v) (snd c)) df.

(** * Properties *)

(** ** Facts about frames *)

Lemma has_column_get name df :
  has_column name df = true <-> exists data, get_column name df = Some data.
Proof.
  unfold has_column, get_column, columns.
  induction df as [|[n d] df IH]; simpl.
  - split; [discriminate | intros [? ?]; discriminate].
  - destruct (String.eqb name n); simpl; [split; eauto | exact IH].
Qed.

Lemma has_column_false name df :
  has_column name df = false <-> get_column name df = None.
Proof.
  pose proof (has_column_get name df) as [H1 H2].
  destruct (has_column name df), (get_column name df) as [d|];
    split; intros; try done.
  - destruct (H1 eq_refl); discriminate.
  - discriminate H2. eauto.
Qed.

Lemma get_column_drop_other name names df :
  ~ In name names -> get_column name (drop names df) = get_column name df.
Proof.
  intros Hn. unfold get_column, drop.
  induction df as [|[n d] df IH]; simpl; [done|].
  destruct (existsb (String.eqb n) names) eqn:E; simpl.
  - destruct (String.eqb name n) eqn:E'; [|exact IH].
    apply String.eqb_eq in E'. subst n.
    apply existsb_exists in E as (x & Hx & Ex).
    apply String.eqb_eq in Ex. subst x. contradiction.
  - destruct (String.eqb name n); [done | exact IH].
Qed.

Lemma get_column_drop_same name names df :
  In name names -> get_column name (drop names df) = None.
Proof.
  intros Hn. unfold get_column, drop.
  induction df as [|[n d] df IH]; simpl; [done|].
  destruct (existsb (String.eqb n) names) eqn:E; simpl; [exact IH|].
  destruct (String.eqb name n) eqn:E'; [|exact IH].
  apply String.eqb_eq in E'. subst n.
  assert (existsb (String.eqb name) names = true) as E2.
  { apply existsb_exists. exists name. split; [done | apply String.eqb_refl]. }
  congruence.
Qed.

Lemma get_column_set_same name data df :
  has_column name df = true -> get_column name (set_column name data df) = Some data.
Proof.
  intros H. unfold set_column. rewrite H.
  unfold has_column, columns in H. unfold get_column.
  induction df as [|[n d] df IH]; simpl in *; [discriminate|].
  destruct (String.eqb name n) eqn:E; simpl.
  - by rewrite String.eqb_refl.
  - rewrite E. apply IH. exact H.
Qed.

Lemma get_column_set_other name other data df :
  has_column name df = true -> other <> name ->
  get_column other (set_column name data df) = get_column other df.
Proof.
  intros H Hne. unfold set_column. rewrite H. clear H.
  unfold get_column.
  induction df as [|[n d] df IH]; simpl; [done|].
  destruct (String.eqb name n) eqn:E; simpl.
  - apply String.eqb_eq in E. subst n.
    apply String.eqb_neq in Hne. rewrite Hne. exact IH.
  - destruct (String.eqb other n); [done | exact IH].
Qed.

Lemma drop_head_other name data names df :
  ~ In name names -> drop names ((name, data) :: df) = (name, data) :: drop names df.
Proof.
  intros Hn. unfold drop. simpl.
  destruct (existsb (String.eqb name) names) eqn:E; [|done].
  apply existsb_exists in E as (x & Hx & Ex).
  apply String.eqb_eq in Ex. subst x. contradiction.
Qed.

(** ** The row loop of the strict mode *)

Lemma strict_row_length sourcedata sinkdata i :
  List.length (strict_row sourcedata sinkdata i) = List.length sinkdata.
Proof.
  unfold strict_row. destruct (sourcedata !! i) as [v|]; [|done].
  destruct (v >? 0); [apply length_insert | done].
Qed.

Lemma strict_row_lookup sourcedata sinkdata i j :
  strict_row sourcedata sinkdata i !! j =
  if decide (i = j)
  then (fun k => match sourcedata !! i with
                 | Some s => if s >? 0 then s else k
                 | None => k
                 end) <$> sinkdata !! j
  else sinkdata !! j.
Proof.
  unfold strict_row. case_decide as Hij.
  - subst j. destruct (sourcedata !! i) as [v|]; [|by destruct (sinkdata !! i)].
    destruct (v >? 0); [|by destruct (sinkdata !! i)].
    destruct (sinkdata !! i) as [k|] eqn:Hk.
    + apply list_lookup_insert_eq. by eapply lookup_lt_Some.
    + apply lookup_ge_None in Hk as Hge.
      rewrite (list_insert_ge sinkdata i v Hge). exact Hk.
  - destruct (sourcedata !! i) as [v|]; [|done].
    destruct (v >? 0); [|done]. by apply list_lookup_insert_ne.
Qed.

Lemma strict_rows_from_lookup sourcedata a n sinkdata j :
  fold_left (strict_row sourcedata) (seq a n) sinkdata !! j =
  if decide (a <= j < a + n)%nat
  then (fun k => match sourcedata !! j with
                 | Some s => if s >? 0 then s else k
                 | None => k
                 end) <$> sinkdata !! j
  else sinkdata !! j.
Proof.
  revert a sinkdata. induction n as [|n IH]; intros a sinkdata; simpl.
  - case_decide; [lia | done].
  - rewrite IH. rewrite strict_row_lookup.
    repeat case_decide; try lia; subst; try done.
Qed.

(** Row by row, the strict loop writes the source value over the sink value
    where the source value is positive and keeps the sink value elsewhere. *)
Lemma strict_rows_lookup sourcedata sinkdata i s k :
  sourcedata !! i = Some s -> sinkdata !! i = Some k ->
  strict_rows sourcedata sinkdata !! i = Some (if s >? 0 then s else k).
Proof.
  intros Hs Hk. unfold strict_rows. rewrite strict_rows_from_lookup.
  apply lookup_lt_Some in Hs as Hlt.
  case_decide; [|lia]. by rewrite Hs, Hk.
Qed.

Lemma strict_rows_length sourcedata sinkdata :
  List.length (strict_rows sourcedata sinkdata) = List.length sinkdata.
Proof.
  unfold strict_rows. generalize (seq 0 (List.length sourcedata)) as l.
  intros l. revert sinkdata.
  induction l as [|i l IH]; intros sinkdata; simpl; [done|].
  by rewrite IH, strict_row_length.
Qed.

(** ** Matrix merger: one pair *)

Lemma merge_pair_present mode df source sink sourcedata sinkdata :
  get_column source df = Some sourcedata ->
  get_column sink df = Some sinkdata ->
  merge_pair mode df (source, sink) =
    let df1 :=
      if String.eqb mode "strict"
      then drop [source] (set_column sink (strict_rows sourcedata sinkdata) df)
      else df in
    if String.eqb mode "lenient"
    then (if equals sourcedata sinkdata then drop [source] df1 else df1)
    else df1.
Proof.
  intros Hs Hk. unfold merge_pair.
  assert (has_column source df = true) as -> by (apply has_column_get; eauto).
  assert (has_column sink df = true) as -> by (apply has_column_get; eauto).
  by rewrite Hs, Hk.
Qed.

Lemma merge_pair_absent mode df source sink :
  has_column source df = false \/ has_column sink df = false ->
  merge_pair mode df (source, sink) = df.
Proof.
  intros [H|H]; unfold merge_pair; rewrite H; simpl; [done|].
  by rewrite orb_true_r.
Qed.

Lemma deduplicate_dataframe_app df pre post mode :
  deduplicate_dataframe df (pre ++ post) mode =
  deduplicate_dataframe (deduplicate_dataframe df pre mode) post mode.
Proof. unfold deduplicate_dataframe. apply fold_left_app. Qed.

(** C5: in "strict" mode a pair whose two columns are present ends with the
    source column deleted; the sink column holds, row by row, the source
    value where that value is positive and its own former value elsewhere;
    no other column changes. For source [1,0,2] and sink [0,5,0] the sink
    becomes [1,5,2] and the source is gone. *)
Theorem strict_merge_overwrites_then_drops
    (df : DataFrame) (source sink : string) (sourcedata sinkdata : column) :
  get_column source df = Some sourcedata ->
  get_column sink df = Some sinkdata ->
  let df' := deduplicate_dataframe df [(source, sink)] "strict" in
  get_column source df' = None /\
  (source <> sink ->
   exists merged,
      get_column sink df' = Some merged /\
      List.length merged = List.length sinkdata /\
      (forall i s k, sourcedata !! i = Some s -> sinkdata !! i = Some k ->
                     0 < s -> merged !! i = Some s) /\
      (forall i s k, sourcedata !! i = Some s -> sinkdata !! i = Some k ->
                     s <= 0 -> merged !! i = Some k)) /\
  (forall other, other <> source -> other <> sink ->
                 get_column other df' = get_column other df) /\
  deduplicate_dataframe [("source", [1; 0; 2]); ("sink", [0; 5; 0])]
    [("source", "sink")] "strict" = [("sink", [1; 5; 2])].
Proof.
  intros Hs Hk df'. subst df'.
  unfold deduplicate_dataframe. cbn [fold_left].
  rewrite (merge_pair_present _ _ _ _ _ _ Hs Hk). simpl.
  assert (has_column sink df = true) as Hhas by (apply has_column_get; eauto).
  split; [apply get_column_drop_same; by left|].
  split.
  - intros Hne. exists (strict_rows sourcedata sinkdata).
    split.
    { rewrite get_column_drop_other by (intros [E|[]]; congruence).
      by apply get_column_set_same. }
    split; [apply strict_rows_length|].
    split; intros i s k Hi Hj Hpos;
      rewrite (strict_rows_lookup _ _ _ _ _ Hi Hj).
    + apply Z.gtb_lt in Hpos. by rewrite Hpos.
    + destruct (s >? 0) eqn:E; [apply Z.gtb_lt in E; lia | done].
  - split; [|reflexivity].
    intros other Ho1 Ho2.
    rewrite get_column_drop_other by (intros [E|[]]; congruence).
    by apply get_column_set_other.
Qed.

Lemma strict_merge_overwrites_then_drops_witness :
  get_column "grow"
    (deduplicate_dataframe [("grow", [1; 0; 2]); ("growth", [0; 5; 0])]
       [("grow", "growth")] "strict") = None.
Proof.
  exact (proj1 (strict_merge_overwrites_then_drops
                  [("grow", [1; 0; 2]); ("growth", [0; 5; 0])]
                  "grow" "growth" [1; 0; 2] [0; 5; 0] eq_refl eq_refl)).
Defined.

(** C6: in "lenient" mode a pair whose two columns are present loses its
    source column exactly when the two columns hold the same values in every
    row; when they differ the frame is returned as it was; the sink column,
    and every column other than the source, keeps its values. *)
Theorem lenient_merge_drops_only_identical
    (df : DataFrame) (source sink : string) (sourcedata sinkdata : column) :
  get_column source df = Some sourcedata ->
  get_column sink df = Some sinkdata ->
  let df' := deduplicate_dataframe df [(source, sink)] "lenient" in
  (get_column source df' = None <-> sourcedata = sinkdata) /\
  (sourcedata <> sinkdata -> df' = df) /\
  (source <> sink -> get_column sink df' = Some sinkdata) /\
  (forall other, other <> source -> get_column other df' = get_column other df).
Proof.
  intros Hs Hk df'. subst df'.
  unfold deduplicate_dataframe. cbn [fold_left].
  rewrite (merge_pair_present _ _ _ _ _ _ Hs Hk). simpl.
  unfold equals. case_bool_decide as Heq.
  - split; [split; [done | intros _; apply get_column_drop_same; by left]|].
    split; [done|].
    split.
    + intros Hne.
      rewrite get_column_drop_other by (intros [E|[]]; congruence). exact Hk.
    + intros other Ho.
      by rewrite get_column_drop_other by (intros [E|[]]; congruence).
  - split; [split; [congruence | done]|]. done.
Qed.

Lemma lenient_merge_drops_only_identical_witness :
  deduplicate_dataframe [("grow", [1; 0; 1]); ("growth", [1; 1; 1])]
    [("grow", "growth")] "lenient"
  = [("grow", [1; 0; 1]); ("growth", [1; 1; 1])].
Proof.
  refine (proj1 (proj2 (lenient_merge_drops_only_identical
                          [("grow", [1; 0; 1]); ("growth", [1; 1; 1])]
                          "grow" "growth" [1; 0; 1] [1; 1; 1]
                          eq_refl eq_refl)) _); discriminate.
Defined.

(** C7: a pair of the list whose source or sink is not a column of the
    matrix as it stands when the pair is reached leaves that matrix as it
    is, in every mode; the call returns what it returns without the pair. *)
Theorem absent_column_pair_is_skipped
    (df : DataFrame) (pre post : list (string * string))
    (source sink mode : string) :
  let current := deduplicate_dataframe df pre mode in
  has_column source current = false \/ has_column sink current = false ->
  merge_pair mode current (source, sink) = current /\
  deduplicate_dataframe df (pre ++ (source, sink) :: post) mode =
  deduplicate_dataframe df (pre ++ post) mode.
Proof.
  intros current H.
  pose proof (merge_pair_absent mode current source sink H) as Hskip.
  split; [exact Hskip|].
  rewrite !deduplicate_dataframe_app. fold current.
  unfold deduplicate_dataframe at 1. cbn [fold_left].
  by rewrite Hskip.
Qed.

Lemma absent_column_pair_is_skipped_witness :
  deduplicate_dataframe
    [("grow", [1; 0]); ("grows", [0; 1]); ("growth", [0; 0])]
    ([("grow", "growth")] ++ ("grow", "grows") :: [("grows", "growth")])
    "strict"
  = deduplicate_dataframe
      [("grow", [1; 0]); ("grows", [0; 1]); ("growth", [0; 0])]
      ([("grow", "growth")] ++ [("grows", "growth")]) "strict".
Proof.
  refine (proj2 (absent_column_pair_is_skipped
                   [("grow", [1; 0]); ("grows", [0; 1]); ("growth", [0; 0])]
                   [("grow", "growth")] [("grows", "growth")]
                   "grow" "grows" "strict" _)).
  left. reflexivity.
Defined.

(** ** Sorting *)

Lemma insert_desc_perm {A : Type} (key : A -> Z) x l :
  Permutation (insert_desc key x l) (x :: l).
Proof.
  induction l as [|y l IH]; simpl; [done|].
  destruct (key x <? key y); [|done].
  rewrite IH. apply perm_swap.
Qed.

Lemma sorted_desc_perm {A : Type} (key : A -> Z) l :
  Permutation (sorted_desc key l) l.
Proof.
  induction l as [|x l IH]; simpl; [done|].
  rewrite insert_desc_perm. by constructor.
Qed.

(** ** Column filters *)

Lemma count_column_names df cols acc e :
  In e (fold_left (count_column df) cols acc) -> In e acc \/ In (fst e) cols.
Proof.
  revert acc. induction cols as [|c cols IH]; intros acc; simpl; [tauto|].
  intros H. apply IH in H as [H|H]; [|tauto].
  unfold count_column in H.
  destruct (get_column c df) as [d|]; [|tauto].
  destruct (sum d >? 0); [|tauto].
  apply in_app_or in H as [H|[<-|[]]]; simpl; tauto.
Qed.

(** Only columns after the first one are counted. *)
Lemma count_tag_occurrence_names df e :
  In e (count_tag_occurrence df) -> In (fst e) (List.tl (columns df)).
Proof.
  unfold count_tag_occurrence. intros H.
  apply (Permutation_in _ (sorted_desc_perm _ _)) in H.
  apply count_column_names in H as [[]|H]. exact H.
Qed.

Lemma drop_if_unique_keeps_head name data counts rest :
  (forall e, In e counts -> fst e <> name) ->
  exists rest',
    fold_left drop_if_unique counts ((name, data) :: rest) = (name, data) :: rest'.
Proof.
  revert rest.
  induction counts as [|[item count] counts IH]; intros rest H; cbn [fold_left].
  - eauto.
  - assert (item <> name) as Hne by (apply (H (item, count)); by left).
    assert (exists r1, drop_if_unique ((name, data) :: rest) (item, count)
                       = (name, data) :: r1) as [r1 ->].
    { unfold drop_if_unique. destruct (count =? 1); [|eauto].
      rewrite drop_head_other by (intros [E|[]]; congruence). eauto. }
    apply IH. intros e He. apply H. by right.
Qed.

(** C10: the first column is never counted by [count_tag_occurrence], and
    the frame [drop_unique_columns] returns starts with the first column of
    its input, name and values as they were, whatever that column holds. *)
Theorem drop_unique_columns_keeps_first_column
    (name : string) (data : column) (rest : DataFrame) :
  NoDup (columns ((name, data) :: rest)) ->
  ~ In name (List.map fst (count_tag_occurrence ((name, data) :: rest))) /\
  exists rest',
    drop_unique_columns ((name, data) :: rest) = (name, data) :: rest'.
Proof.
  intros Hnd. simpl in Hnd. apply NoDup_cons in Hnd as [Hnotin _].
  assert (forall e, In e (count_tag_occurrence ((name, data) :: rest)) ->
                    fst e <> name) as Hnames.
  { intros e He <-. apply count_tag_occurrence_names in He. simpl in He.
    apply Hnotin. by apply list_elem_of_In. }
  split.
  - intros Hin. apply in_map_iff in Hin as (e & He & Hin).
    by apply (Hnames e Hin).
  - by apply drop_if_unique_keeps_head.
Qed.

Lemma drop_unique_columns_keeps_first_column_witness :
  exists rest',
    drop_unique_columns [("solo", [0; 1; 0]); ("once", [1; 0; 0]); ("twice", [1; 1; 0])]
    = ("solo", [0; 1; 0]) :: rest'.
Proof.
  refine (proj2 (drop_unique_columns_keeps_first_column
                   "solo" [0; 1; 0] [("once", [1; 0; 0]); ("twice", [1; 1; 0])] _)).
  apply (bool_decide_unpack _). vm_compute. exact I.
Defined.

(** ** Column filters on objects *)

Lemma copy_fresh (r : nat) (h : gmap nat DataFrame) df :
  h !! r = Some df ->
  exists r', Obj.copy r h = Some (r', <[r' := df]> h) /\ h !! r' = None /\ r' <> r.
Proof.
  intros Hr. exists (fresh (dom h)).
  assert (h !! fresh (dom h) = None) as Hfresh.
  { apply not_elem_of_dom. apply is_fresh. }
  unfold Obj.copy. rewrite Hr. simpl.
  repeat split; [done|]. intros E. rewrite E in Hfresh. congruence.
Qed.

Lemma drop_inplace_some names (r : nat) (h : gmap nat DataFrame) df :
  h !! r = Some df ->
  Obj.drop_inplace names r h = Some (<[r := drop names df]> h).
Proof. intros Hr. unfold Obj.drop_inplace. by rewrite Hr. Qed.

(** The loop of [drop_unique_columns] changes the copy and nothing else. *)
Lemma drop_if_unique_object counts (r : nat) (h : gmap nat DataFrame) df :
  h !! r = Some df ->
  fold_left (Obj.drop_if_unique r) counts (Some h) =
  Some (<[r := fold_left drop_if_unique counts df]> h).
Proof.
  revert h df.
  induction counts as [|[item count] counts IH]; intros h df Hr; cbn [fold_left].
  - by rewrite insert_id.
  - unfold Obj.drop_if_unique at 2, drop_if_unique at 2. simpl.
    destruct (count =? 1).
    + rewrite (drop_inplace_some _ _ _ _ Hr).
      rewrite (IH _ (drop [item] df)) by apply lookup_insert_eq.
      by rewrite insert_insert_eq.
    + by apply IH.
Qed.

(** C8, as the code has it: [drop_unique_columns] returns a new object and
    leaves the object it was given, and every other one, as it was;
    [drop_0_columns] returns the very object it was given, which has lost
    its all-zero columns. *)
Theorem column_filters_copy_or_in_place
    (h : gmap nat DataFrame) (r : nat) (df : DataFrame) :
  h !! r = Some df ->
  (exists r' h',
      Obj.drop_unique_columns r h = Some (r', h') /\
      r' <> r /\
      h' !! r' = Some (drop_unique_columns df) /\
      forall o, o <> r' -> h' !! o = h !! o) /\
  (exists h',
      Obj.drop_0_columns r h = Some (r, h') /\
      h' !! r = Some (drop_0_columns df) /\
      forall o, o <> r -> h' !! o = h !! o).
Proof.
  intros Hr. split.
  - destruct (copy_fresh r h df Hr) as (r' & Hcopy & Hnone & Hne).
    exists r', (<[r' := drop_unique_columns df]> (<[r' := df]> h)).
    split.
    { unfold Obj.drop_unique_columns. rewrite Hcopy. simpl.
      rewrite lookup_insert_ne by done. rewrite Hr. simpl.
      rewrite (drop_if_unique_object _ _ _ df) by apply lookup_insert_eq.
      done. }
    split; [done|].
    split; [apply lookup_insert_eq|].
    intros o Ho. by rewrite !lookup_insert_ne.
  - exists (<[r := drop_0_columns df]> h).
    split.
    { unfold Obj.drop_0_columns. rewrite Hr. simpl.
      by rewrite (drop_inplace_some _ _ _ _ Hr). }
    split; [apply lookup_insert_eq|].
    intros o Ho. by rewrite lookup_insert_ne.
Qed.

Lemma column_filters_copy_or_in_place_witness :
  exists h',
    Obj.drop_0_columns 0%nat {[ 0%nat := [("seen", [1; 2]); ("unseen", [0; 0])] ]}
    = Some (0%nat, h') /\
    h' !! 0%nat = Some [("seen", [1; 2])].
Proof.
  assert (({[ 0%nat := [("seen", [1; 2]); ("unseen", [0; 0])] ]}
             : gmap nat DataFrame) !! 0%nat
          = Some [("seen", [1; 2]); ("unseen", [0; 0])]) as Hobj0
    by (vm_compute; reflexivity).
  destruct (column_filters_copy_or_in_place _ _ _ Hobj0)
    as (_ & h' & Hrun & Hobj & _).
  exists h'. split; [exact Hrun | exact Hobj].
Defined.

(** C8, as stated, fails: after [drop_0_columns] the object that was passed
    in no longer has the column it had. *)
Lemma drop_0_columns_changes_its_argument :
  let h : gmap nat DataFrame :=
    {[ 0%nat := [("seen", [1; 2]); ("unseen", [0; 0])] ]} in
  exists h',
    Obj.drop_0_columns 0%nat h = Some (0%nat, h') /\
    h !! 0%nat = Some [("seen", [1; 2]); ("unseen", [0; 0])] /\
    h' !! 0%nat = Some [("seen", [1; 2])] /\
    h' !! 0%nat <> h !! 0%nat.
Proof.
  intros h. exists {[ 0%nat := [("seen", [1; 2])] ]}.
  repeat split; try (vm_compute; reflexivity).
  vm_compute. discriminate.
Qed.

(** ** Variance reducer *)

(** *** The float64 addition never falls below a non-negative addend *)











Lemma double_le_finite ma ea m e :
  double_le (S754_finite false ma ea) (S754_finite false m e) = true <->
  ea < e \/ ea = e /\ Zpos ma <= Zpos m.
Proof.
  unfold double_le, SFleb, SFcompare.
  change (Pos.compare_cont Eq ma m) with (ma ?= m)%positive.
  destruct (Z.compare_spec ea e) as [E|E|E].
  - destruct (Pos.compare_spec ma m); split; try done; try lia.
  - split; [lia | done].
  - split; [done | lia].
Qed.





(** *** The running sums *)

Lemma cumsum_from_length acc a : List.length (cumsum_from acc a) = List.length a.
Proof.
  revert acc. induction a as [|x a IH]; intros acc; simpl; [done|].
  by rewrite IH.
Qed.

Lemma cumsum_length a : List.length (cumsum a) = List.length a.
Proof. destruct a; simpl; [done|]. by rewrite cumsum_from_length. Qed.






(** *** The search for the count *)

Lemma first_true_Some l i :
  first_true l = Some i ->
  l !! i = Some true /\ forall j, (j < i)%nat -> l !! j = Some false.
Proof.
  revert i. induction l as [|b l IH]; intros i; simpl; [done|].
  destruct b.
  - intros [= <-]. split; [done | intros j Hj; lia].
  - destruct (first_true l) as [i'|]; simpl; [|done].
    intros [= <-]. destruct (IH i' eq_refl) as [H1 H2].
    split; [done|]. intros [|j] Hj; simpl; [done|]. apply H2. lia.
Qed.

Lemma first_true_None l i :
  first_true l = None -> l !! i <> Some true.
Proof.
  revert i. induction l as [|b l IH]; intros i; simpl; [done|].
  destruct b; [done|].
  destruct (first_true l); simpl; [done|].
  intros _. destruct i as [|i]; simpl; [done | by apply IH].
Qed.

Lemma first_true_lt l i : first_true l = Some i -> (i < List.length l)%nat.
Proof.
  intros H. apply first_true_Some in H as [H _]. by eapply lookup_lt_Some.
Qed.

Lemma num_components_bounds level cum :
  cum <> [] ->
  exists k, num_components_for_variance level cum = Some k /\
            (1 <= k <= List.length cum)%nat.
Proof.
  intros Hne. unfold num_components_for_variance, argmax.
  destruct cum as [|c cum]; [done|]. cbn [List.map].
  destruct (first_true (double_le level c :: List.map (double_le level) cum))
    as [i|] eqn:Hfirst; simpl.
  - eexists. split; [done|].
    apply first_true_lt in Hfirst. simpl in Hfirst.
    rewrite length_map in Hfirst. lia.
  - eexists. split; [done|]. lia.
Qed.


Lemma num_components_not_reached level cum :
  cum <> [] ->
  (forall c, In c cum -> double_le level c = false) ->
  num_components_for_variance level cum = Some 1%nat.
Proof.
  intros Hne Hnever.
  unfold num_components_for_variance, argmax.
  set (flags := List.map (double_le level) cum).
  assert (first_true flags = None) as Hnone.
  { destruct (first_true flags) as [i|] eqn:Hfirst; [|done].
    apply first_true_Some in Hfirst as [Hi _]. unfold flags in Hi.
    change (List.map ?f ?l) with (f <$> l) in Hi.
    rewrite list_lookup_fmap in Hi.
    destruct (cum !! i) as [c|] eqn:Hc; [|done].
    simpl in Hi. injection Hi as Hi.
    rewrite (Hnever c) in Hi; [done|].
    apply list_elem_of_In. apply list_elem_of_lookup. eauto. }
  rewrite Hnone. destruct flags eqn:Ef; [|done].
  apply (f_equal (@List.length bool)) in Ef. unfold flags in Ef.
  rewrite length_map in Ef. by destruct cum.
Qed.


(** The decimal literals of the two levels and of the inputs used below:
    [0.80] is 0x1.999999999999ap-1 and [0.95] is 0x1.e666666666666p-1. *)
Example decimal_literals :
  decimal 80 100 = S754_finite false 7205759403792794 (-53) /\
  decimal 95 100 = S754_finite false 8556839292003942 (-53) /\
  decimal 7 10 = S754_finite false 6305039478318694 (-53) /\
  decimal 1 10 = S754_finite false 7205759403792794 (-56) /\
  decimal 2 10 = S754_finite false 7205759403792794 (-55) /\
  decimal 1 2 = S754_finite false 4503599627370496 (-53) /\
  decimal 1 1 = S754_finite false 4503599627370496 (-52).
Proof. repeat split; vm_compute; reflexivity. Qed.




(** The sums are rounded: 0.7 + 0.1 is 0.7999999999999999 in float64,
    below 0.80, so the ratios 0.7, 0.1, 0.2 need three components where
    exact sums would need two. *)
Example cumsum_is_rounded :
  plot_pca_tags [decimal 7 10; decimal 1 10; decimal 2 10]
  = Some (VarianceSummary
            [decimal 7 10; S754_finite false 7205759403792793 (-53);
             decimal 1 1] 3 3).
Proof. vm_compute. reflexivity. Qed.

(** Ratios that are NaN (a PCA of data without variance divides 0 by 0)
    give cumulative values that are NaN: no comparison holds, the vector is
    not non-decreasing and both counts are 1. *)
Example nan_ratios :
  plot_pca_tags [S754_nan; S754_nan]
  = Some (VarianceSummary [S754_nan; S754_nan] 1 1) /\
  double_le S754_nan S754_nan = false.
Proof. split; reflexivity. Qed.

(** ** Sorting, continued *)

Lemma insert_desc_map {A B : Type} (key : B -> Z) (f : A -> B) x l :
  insert_desc key (f x) (List.map f l) =
  List.map f (insert_desc (fun a => key (f a)) x l).
Proof.
  induction l as [|y l IH]; simpl; [done|].
  destruct (key (f x) <? key (f y)); simpl; [by rewrite IH | done].
Qed.

Lemma sorted_desc_map {A B : Type} (key : B -> Z) (f : A -> B) l :
  sorted_desc key (List.map f l) =
  List.map f (sorted_desc (fun a => key (f a)) l).
Proof.
  unfold sorted_desc.
  induction l as [|x l IH]; cbn [List.map fold_right]; [done|].
  rewrite IH. apply insert_desc_map.
Qed.

Lemma insert_desc_descending {A : Type} (key : A -> Z) x l :
  descending key l -> descending key (insert_desc key x l).
Proof.
  unfold descending. induction 1 as [|y l Hl IH Hy]; simpl.
  - repeat constructor.
  - destruct (key x <? key y) eqn:E.
    + apply Z.ltb_lt in E. constructor; [exact IH|].
      apply Forall_forall. intros z Hz.
      apply list_elem_of_In in Hz.
      apply (Permutation_in _ (insert_desc_perm key x l)) in Hz as [<-|Hz]; [lia|].
      rewrite Forall_forall in Hy. apply Hy. by apply list_elem_of_In.
    + apply Z.ltb_ge in E. constructor; [by constructor|].
      constructor; [done|].
      eapply Forall_impl; [exact Hy|]. simpl. intros z Hz. lia.
Qed.

Lemma sorted_desc_descending {A : Type} (key : A -> Z) l :
  descending key (sorted_desc key l).
Proof.
  induction l as [|x l IH]; simpl; [constructor|].
  by apply insert_desc_descending.
Qed.

Lemma descending_sublist {A : Type} (key : A -> Z) (l1 l2 : list A) :
  sublist l1 l2 -> descending key l2 -> descending key l1.
Proof.
  unfold descending. induction 1 as [|x l1 l2 Hsub IH|x l1 l2 Hsub IH]; intros Hs.
  - constructor.
  - apply StronglySorted_inv in Hs as [Hs Hx].
    constructor; [by apply IH|].
    apply Forall_forall. intros z Hz. rewrite Forall_forall in Hx.
    apply Hx. by eapply elem_of_sublist.
  - apply StronglySorted_inv in Hs as [Hs _]. by apply IH.
Qed.

(** Sorting a list that is already in order gives the list back. *)
Lemma sorted_desc_id {A : Type} (key : A -> Z) l :
  descending key l -> sorted_desc key l = l.
Proof.
  unfold descending, sorted_desc.
  induction 1 as [|x l Hl IH Hx]; cbn [fold_right]; [done|].
  rewrite IH.
  destruct l as [|y l]; simpl; [done|].
  apply Forall_cons in Hx as [Hy _].
  destruct (key x <? key y) eqn:E; [apply Z.ltb_lt in E; lia | done].
Qed.

(** ** Conjugation deduplicator *)

Section ConjugationFacts.

Variable set_iter : list string -> list string.

Lemma fold_left_bodies {S A : Type} (body : A -> S -> S) (l : list A) (st : S) :
  fold_left (fun s (b : A * (S -> S)) => snd b s)
            (List.map (fun w => (w, body w)) l) st
  = fold_left (fun s w => body w s) l st.
Proof.
  revert st. induction l as [|x l IH]; intros st; simpl; [done | apply IH].
Qed.

(** The nested call of the source: on a sub-list the loop body runs the
    whole function on it, with the shared accumulator. *)
Lemma loop_body_Group ws st :
  loop_body set_iter (Group ws) st =
  let sub := run_loop set_iter ws (deleted_pairs st) in
  LoopState (processed_prefixes st)
            (deduplicated st ++ [Group (deduplicated sub)])
            (deleted_pairs sub).
Proof.
  cbn [loop_body]. unfold run_loop.
  rewrite (sorted_desc_map (fun b => py_len (fst b))
             (fun w => (w, loop_body set_iter w)) ws).
  cbn [fst]. rewrite fold_left_bodies. reflexivity.
Qed.

(** A run of the loop over tags: the tags it accepts are a sub-list of the
    tags it is given, and a second run over the accepted tags, from the
    same set, accepts every one of them and finds no pair. *)
Lemma words_run (L : list string) :
  forall p d q,
  exists A q',
    fold_left (fun st word => loop_body set_iter word st) (List.map Word L)
              (LoopState p d q)
    = LoopState (p ++ A) (d ++ List.map Word A) q' /\
    sublist A L /\
    forall d2 q2,
      fold_left (fun st word => loop_body set_iter word st) (List.map Word A)
                (LoopState p d2 q2)
      = LoopState (p ++ A) (d2 ++ List.map Word A) q2.
Proof.
  induction L as [|w L IH]; intros p d q.
  - exists [], q. rewrite !app_nil_r. simpl.
    split; [done|]. split; [apply sublist_nil|].
    intros d2 q2. by rewrite app_nil_r.
  - cbn [List.map fold_left loop_body processed_prefixes deduplicated
           deleted_pairs].
    destruct (List.find (is_conjugation w) (set_iter p)) as [e|] eqn:Hfind.
    + destruct (IH p d (q ++ [(w, e)])) as (A & q' & Hrun & Hsub & Hagain).
      exists A, q'. split; [exact Hrun|]. split; [by constructor | exact Hagain].
    + destruct (IH (p ++ [w]) (d ++ [Word w]) q) as (A & q' & Hrun & Hsub & Hagain).
      exists (w :: A), q'. split.
      { rewrite Hrun. simpl. by rewrite <- !app_assoc. }
      split; [by constructor|].
      intros d2 q2.
      cbn [List.map fold_left loop_body processed_prefixes deduplicated
             deleted_pairs].
      rewrite Hfind, Hagain. simpl. by rewrite <- !app_assoc.
Qed.

End ConjugationFacts.

(** C3: in collapse mode (any [method] other than "pairs") the list returned
    for a list of tags is returned unchanged when it is given to the
    function again, and that second run leaves the accumulator as it
    received it: no pair is added. *)
Theorem collapse_is_idempotent
    (set_iter : list string -> list string) (ws : list string)
    (method : string) (acc : option (list (string * string))) :
  method <> "pairs" ->
  exists out found,
    deduplicate_tag_conjugations set_iter (List.map Word ws) method acc
    = (Collapsed out, found) /\
    forall acc',
      deduplicate_tag_conjugations set_iter out method acc'
      = (Collapsed out, default [] acc').
Proof.
  intros Hmethod. apply String.eqb_neq in Hmethod.
  unfold deduplicate_tag_conjugations, run_loop, fresh_state.
  rewrite Hmethod.
  rewrite (sorted_desc_map py_len Word ws).
  destruct (words_run set_iter (sorted_desc (fun a => py_len (Word a)) ws)
              [] [] (default [] acc)) as (A & q' & Hrun & Hsub & Hagain).
  rewrite Hrun. simpl.
  exists (List.map Word A), q'. split; [done|].
  intros acc'.
  rewrite (sorted_desc_map py_len Word A).
  rewrite (sorted_desc_id (fun a => py_len (Word a)) A).
  - by rewrite Hagain.
  - eapply descending_sublist; [exact Hsub | apply sorted_desc_descending].
Qed.

Lemma collapse_is_idempotent_witness :
  exists out found,
    deduplicate_tag_conjugations (fun l => l)
      (List.map Word ["grow"; "growth"; "grew"]) "" None
    = (Collapsed out, found) /\
    deduplicate_tag_conjugations (fun l => l) out "" (Some [])
    = (Collapsed out, []).
Proof.
  destruct (collapse_is_idempotent (fun l => l) ["grow"; "growth"; "grew"] "" None)
    as (out & found & Hfirst & Hsecond); [discriminate|].
  exists out, found. split; [exact Hfirst | exact (Hsecond (Some []))].
Defined.

(** For a nested list the returned groups are given back in a different
    order when their sizes changed: the outer sort is by group size. *)
Example collapse_reorders_groups :
  let word_list := [Group [Word "a"; Word "ab"; Word "abc"];
                    Group [Word "x"; Word "y"]] in
  let out := [Group [Word "abc"]; Group [Word "x"; Word "y"]] in
  deduplicate_tag_conjugations (fun l => l) word_list "" None
  = (Collapsed out, [("ab", "abc"); ("a", "abc")]) /\
  deduplicate_tag_conjugations (fun l => l) out "" None
  = (Collapsed [Group [Word "x"; Word "y"]; Group [Word "abc"]], []).
Proof. split; reflexivity. Qed.

(** ** The group "grow", "growth", "grew" *)

Lemma find_head_filter {A : Type} (f : A -> bool) l :
  List.find f l = head (List.filter f l).
Proof.
  induction l as [|x l IH]; simpl; [done|]. by destruct (f x).
Qed.

Section SetOrder.

Variable set_iter : list string -> list string.
Hypothesis set_iter_perm : forall l, Permutation (set_iter l) l.

Lemma filter_set_iter (f : string -> bool) P :
  Permutation (List.filter f (set_iter P)) (List.filter f P).
Proof.
  pose proof (set_iter_perm P) as H.
  induction H as [|x l l' H IH|x y l|l l' l'' H1 IH1 H2 IH2]; simpl.
  - done.
  - destruct (f x); [by constructor | done].
  - destruct (f x), (f y); try done. apply perm_swap.
  - by etransitivity.
Qed.

(** When no member matches, [any(...)] is false. *)
Lemma find_set_iter_none (f : string -> bool) P :
  List.filter f P = [] -> List.find f (set_iter P) = None.
Proof.
  intros H. rewrite find_head_filter.
  pose proof (filter_set_iter f P) as Hp. rewrite H in Hp.
  apply Permutation_nil_r in Hp. by rewrite Hp.
Qed.

(** When one member matches, [next(...)] is that member in any order. *)
Lemma find_set_iter_one (f : string -> bool) P e :
  List.filter f P = [e] -> List.find f (set_iter P) = Some e.
Proof.
  intros H. rewrite find_head_filter.
  pose proof (filter_set_iter f P) as Hp. rewrite H in Hp.
  apply Permutation_singleton_r in Hp. by rewrite Hp.
Qed.

Lemma loop_body_accept w p d q :
  List.filter (is_conjugation w) p = [] ->
  loop_body set_iter (Word w) (LoopState p d q)
  = LoopState (p ++ [w]) (d ++ [Word w]) q.
Proof. intros H. simpl. by rewrite (find_set_iter_none _ _ H). Qed.

Lemma loop_body_duplicate w e p d q :
  List.filter (is_conjugation w) p = [e] ->
  loop_body set_iter (Word w) (LoopState p d q)
  = LoopState p d (q ++ [(w, e)]).
Proof. intros H. simpl. by rewrite (find_set_iter_one _ _ _ H). Qed.

Lemma run_growth_grow_grew q :
  fold_left (fun st word => loop_body set_iter word st)
    [Word "growth"; Word "grow"; Word "grew"] (fresh_state q)
  = LoopState ["growth"; "grew"] [Word "growth"; Word "grew"]
              (q ++ [("grow", "growth")]).
Proof.
  unfold fresh_state. cbn [fold_left].
  rewrite loop_body_accept by reflexivity.
  rewrite (loop_body_duplicate "grow" "growth") by reflexivity.
  rewrite loop_body_accept by reflexivity.
  reflexivity.
Qed.

Lemma run_growth_grew_grow q :
  fold_left (fun st word => loop_body set_iter word st)
    [Word "growth"; Word "grew"; Word "grow"] (fresh_state q)
  = LoopState ["growth"; "grew"] [Word "growth"; Word "grew"]
              (q ++ [("grow", "growth")]).
Proof.
  unfold fresh_state. cbn [fold_left].
  rewrite loop_body_accept by reflexivity.
  rewrite loop_body_accept by reflexivity.
  rewrite (loop_body_duplicate "grow" "growth") by reflexivity.
  reflexivity.
Qed.

End SetOrder.

(** C2, as the code has it: whatever the order in which the group lists the
    three tags and whatever the iteration order of the set, "growth" is
    processed first and the two four-letter tags follow in the order of the
    group; the pairs returned are exactly [("grow", "growth")], "grew" not
    being a leading part of "growth"; the strict merge with these pairs
    deletes the "grow" column alone and leaves "growth" and "grew". *)
Theorem grow_growth_grew_pairs
    (set_iter : list string -> list string) (group : list string)
    (grow growth grew : column) :
  (forall l, Permutation (set_iter l) l) ->
  Permutation group ["grow"; "growth"; "grew"] ->
  (exists x y,
      sorted_desc py_len (List.map Word group)
      = [Word "growth"; Word x; Word y] /\
      sublist [x; y] group) /\
  deduplicate_tag_conjugations set_iter (List.map Word group) "pairs" None
  = (Pairs [("grow", "growth")], [("grow", "growth")]) /\
  deduplicate_dataframe
    [("grow", grow); ("growth", growth); ("grew", grew)]
    [("grow", "growth")] "strict"
  = [("growth", strict_rows grow growth); ("grew", grew)].
Proof.
  intros Hperm Hgroup.
  split; [|split; [|reflexivity]].
  - symmetry in Hgroup. apply permutations_Permutation in Hgroup.
    vm_compute in Hgroup.
    repeat (apply elem_of_cons in Hgroup as [->|Hgroup]);
      try (by apply elem_of_nil in Hgroup).
    + exists "grow", "grew". split; [reflexivity|]. 
      apply sublist_skip, sublist_cons, sublist_skip, sublist_nil.
    + exists "grow", "grew". split; [reflexivity|]. 
      apply sublist_cons, sublist_skip, sublist_skip, sublist_nil.
    + exists "grew", "grow". split; [reflexivity|]. 
      apply sublist_cons, sublist_skip, sublist_skip, sublist_nil.
    + exists "grow", "grew". split; [reflexivity|]. 
      apply sublist_skip, sublist_skip, sublist_cons, sublist_nil.
    + exists "grew", "grow". split; [reflexivity|]. 
      apply sublist_skip, sublist_skip, sublist_cons, sublist_nil.
    + exists "grew", "grow". split; [reflexivity|]. 
      apply sublist_skip, sublist_cons, sublist_skip, sublist_nil.
  - symmetry in Hgroup. apply permutations_Permutation in Hgroup.
    vm_compute in Hgroup.
    unfold deduplicate_tag_conjugations, run_loop.
    repeat (apply elem_of_cons in Hgroup as [->|Hgroup]);
      try (by apply elem_of_nil in Hgroup);
      match goal with
      | |- context [sorted_desc py_len ?l] =>
          let s := eval vm_compute in (sorted_desc py_len l) in
          change (sorted_desc py_len l) with s
      end;
      first [ rewrite (run_growth_grow_grew set_iter Hperm)
            | rewrite (run_growth_grew_grow set_iter Hperm) ];
      reflexivity.
Qed.

Lemma grow_growth_grew_pairs_witness :
  deduplicate_tag_conjugations (fun l => l)
    (List.map Word ["grow"; "growth"; "grew"]) "pairs" None
  = (Pairs [("grow", "growth")], [("grow", "growth")]).
Proof.
  refine (proj1 (proj2 (grow_growth_grew_pairs (fun l => l)
                          ["grow"; "growth"; "grew"] [1; 1; 0] [1; 1; 1] [0; 1; 1]
                          _ _))).
  - intros l. apply Permutation_refl.
  - apply Permutation_refl.
Defined.

(** C2, as stated, fails: the tags are not processed in the order "growth",
    "grew", "grow", the pair ("grew", "growth") is not returned, and the
    strict merge with the returned pairs keeps the "grew" column. *)
Lemma grew_is_not_a_conjugation_of_growth :
  let group := List.map Word ["grow"; "growth"; "grew"] in
  let returned :=
    result_pairs
      (fst (deduplicate_tag_conjugations (fun l => l) group "pairs" None)) in
  sorted_desc py_len group <> List.map Word ["growth"; "grew"; "grow"] /\
  is_conjugation "grew" "growth" = false /\
  returned <> [("grow", "growth"); ("grew", "growth")] /\
  columns (deduplicate_dataframe
             [("grow", [1; 1; 0]); ("growth", [1; 1; 1]); ("grew", [0; 1; 1])]
             returned "strict")
  <> ["growth"].
Proof. vm_compute. repeat split; discriminate. Qed.

(** ** Manual resolution *)

(** An answer that is none of "y", "n", "q" writes the message and goes on
    with the next pair. *)
Lemma manual_invalid_answer_advances source sink rest df sourcedata sinkdata
    line ins out :
  get_column source df = Some sourcedata ->
  get_column sink df = Some sinkdata ->
  lower line <> "y" -> lower line <> "n" -> lower line <> "q" ->
  manual_deduplication ((source, sink) :: rest) df (Console (line :: ins) out)
  = manual_deduplication rest df
      (Console ins (out ++ [merge_prompt source sink] ++ [invalid_message])).
Proof.
  intros Hs Hk Hy Hn Hq. cbn [manual_deduplication]. rewrite Hs, Hk.
  unfold input. cbn [stdin stdout mbind option_bind].
  apply String.eqb_neq in Hy, Hn, Hq. rewrite Hy, Hn, Hq.
  unfold print. cbn [stdin stdout]. by rewrite <- app_assoc.
Qed.

(** The answer "n" ends the loop like "q": the remaining pairs are not
    offered. *)
Lemma manual_n_answer_stops source sink rest df sourcedata sinkdata line ins out :
  get_column source df = Some sourcedata ->
  get_column sink df = Some sinkdata ->
  lower line = "n" \/ lower line = "q" ->
  manual_deduplication ((source, sink) :: rest) df (Console (line :: ins) out)
  = Some (df, Console ins (out ++ [merge_prompt source sink])).
Proof.
  intros Hs Hk Hnq. cbn [manual_deduplication]. rewrite Hs, Hk.
  unfold input. cbn [stdin stdout mbind option_bind].
  by destruct Hnq as [-> | ->].
Qed.


(** ** Deduplication orchestrator *)

(** The lenient merge is given the input matrix (after [drop_0_columns]),
    whatever the strict merge returned. *)
Lemma lenient_argument_is_input set_iter group_tags matrix0 threshold manual c ph :
  merge_phases set_iter group_tags matrix0 threshold manual c = Some ph ->
  lenient_argument ph = drop_0_columns matrix0 /\
  exists deduplicated_tags,
    calculate_tag_similarity set_iter group_tags (drop_0_columns matrix0)
      "pairs" threshold = Some deduplicated_tags /\
    matrix_deduplicated ph =
      deduplicate_dataframe (drop_0_columns matrix0)
        (result_pairs deduplicated_tags) "strict".
Proof.
  unfold merge_phases. intros H.
  destruct (calculate_tag_similarity set_iter group_tags
              (drop_0_columns matrix0) "pairs" threshold) as [r1|];
    [|discriminate].
  cbn [fmap option_fmap option_map mbind option_bind] in H.
  match type of H with
  | context [calculate_tag_similarity _ _ ?d "" _] =>
      destruct (calculate_tag_similarity set_iter group_tags d "" threshold)
        as [r2|]; [|discriminate]
  end.
  cbn [fmap option_fmap option_map mbind option_bind] in H.
  match type of H with
  | context [calculate_tag_similarity _ _ ?d "" _] =>
      destruct (calculate_tag_similarity set_iter group_tags d "" threshold)
        as [r3|]; [|discriminate]
  end.
  cbn [fmap option_fmap option_map mbind option_bind] in H.
  destruct manual.
  - match type of H with
    | context [manual_deduplication ?t ?d ?c] =>
        destruct (manual_deduplication t d c) as [[m c']|]
    end; simpl in H; [|discriminate].
    injection H as <-. split; [done|]. by exists r1.
  - simpl in H. injection H as <-. split; [done|]. by exists r1.
Qed.

(** The distances behind [example_group_tags]. *)
Example example_distances :
  bray_curtis [1; 0; 1; 0] [1; 1; 1; 0] = (1 # 5)%Q /\
  bray_curtis [1; 0; 1; 0] [0; 0; 0; 1] = (3 # 3)%Q /\
  bray_curtis [1; 1; 1; 0] [0; 0; 0; 1] = (4 # 4)%Q.
Proof. repeat split; reflexivity. Qed.

(** C1 on the code: the strict merge folds "grow" into "growth", yet the
    lenient merge is given the input matrix, not the matrix of the strict
    merge, and the matrix returned still has the "grow" column. *)
Theorem lenient_merge_runs_on_input_matrix :
  exists ph,
    merge_phases (fun l => l) example_group_tags example_matrix (6 # 10)
      false (Console [] []) = Some ph /\
    matrix_deduplicated ph
    = [("growth", [1; 1; 1; 0]); ("zebra", [0; 0; 0; 1])] /\
    lenient_argument ph = example_matrix /\
    lenient_argument ph <> matrix_deduplicated ph /\
    matrix_deduplicated_manual ph = example_matrix /\
    merge_similar_tags_from_dataframe (fun l => l) example_group_tags
      example_matrix (6 # 10) false (Console [] []) = Some example_matrix.
Proof.
  eexists. split; [vm_compute; reflexivity|].
  repeat split; try reflexivity. discriminate.
Qed.

(** * Further properties of the module *)

(** ** The duplicate test *)

Lemma is_conjugation_either_prefix_aux (word existing_prefix : string) :
  is_conjugation word existing_prefix
  = String.prefix word existing_prefix || String.prefix existing_prefix word.
Proof.
  unfold is_conjugation, startswith, slice_to.
  revert existing_prefix.
  induction word as [|c w IH]; intros [|c' e]; simpl; try reflexivity.
  specialize (IH e).
  destruct (ascii_dec c' c) as [->|Hne].
  - destruct (ascii_dec c c); [exact IH | done].
  - destruct (ascii_dec c c') as [->|]; [done | reflexivity].
Qed.

(** X1: the duplicate test of the conjugation deduplicator holds exactly
    when one of the two tags is a leading part of the other (or they are
    equal); in particular it is symmetric. *)
Theorem is_conjugation_either_prefix (word existing_prefix : string) :
  (is_conjugation word existing_prefix = true <->
   String.prefix word existing_prefix = true \/
   String.prefix existing_prefix word = true) /\
  is_conjugation word existing_prefix = is_conjugation existing_prefix word.
Proof.
  split.
  - rewrite is_conjugation_either_prefix_aux. apply orb_true_iff.
  - rewrite !is_conjugation_either_prefix_aux. apply orb_comm.
Qed.

(** ** Pairwise combinations *)

Lemma sublist_singleton_In {A : Type} (y : A) l : sublist [y] l <-> In y l.
Proof.
  induction l as [|a l IH]; simpl.
  - split; [intros H; by apply sublist_nil_r in H | done].
  - rewrite sublist_cons_r. split.
    + intros [H|(l' & [= -> <-] & _)]; [right; by apply IH | by left].
    + intros [->|H]; [right; eexists; split; [done | apply sublist_nil_l]|].
      left. by apply IH.
Qed.

Lemma combinations2_In {A : Type} (x y : A) l :
  In (x, y) (combinations2 l) <-> sublist [x; y] l.
Proof.
  induction l as [|a l IH]; simpl.
  - split; [done | intros H; by apply sublist_nil_r in H].
  - rewrite in_app_iff, in_map_iff, sublist_cons_r, IH. split.
    + intros [(y' & [= -> ->] & Hy)|H]; [|by left].
      right. eexists. split; [done|]. by apply sublist_singleton_In.
    + intros [H|(l' & [= -> <-] & Hy)]; [by right|].
      left. exists y. split; [done|]. by apply sublist_singleton_In.
Qed.

(** X2: [generate_tuple_combinations] returns exactly the pairs made of two
    members of one and the same element of the nested list, the member that
    comes first in that element being the first of the pair: no pair joins
    members of two different groups, and in a group without a repeated
    member no pair joins a member with itself. *)
Theorem generate_tuple_combinations_within_groups
    (nested_list : list item) (x y : item) :
  (In (x, y) (generate_tuple_combinations nested_list) <->
   exists group, In group nested_list /\ sublist [x; y] (elements group)) /\
  ((forall group, In group nested_list -> NoDup (elements group)) ->
   In (x, y) (generate_tuple_combinations nested_list) -> x <> y).
Proof.
  assert (In (x, y) (generate_tuple_combinations nested_list) <->
          exists group, In group nested_list /\
                        sublist [x; y] (elements group)) as Hiff.
  { unfold generate_tuple_combinations. rewrite in_flat_map.
    split; intros (g & Hg & H); exists g; (split; [done|]);
      by apply combinations2_In. }
  split; [exact Hiff|].
  intros Hnd H ->. apply Hiff in H as (g & Hg & H).
  specialize (Hnd g Hg). eapply sublist_NoDup in Hnd; [|exact H].
  apply NoDup_cons in Hnd as [Hnd _]. apply Hnd. by left.
Qed.

Lemma generate_tuple_combinations_within_groups_witness :
  Word "grow" <> Word "grows".
Proof.
  refine (proj2 (generate_tuple_combinations_within_groups
                   [Group [Word "grow"; Word "grows"; Word "grown"]]
                   (Word "grow") (Word "grows")) _ _).
  - intros g [<-|[]]. simpl.
    repeat (constructor;
            [intros H;
             repeat (apply elem_of_cons in H as [H|H]; [discriminate|]);
             by apply elem_of_nil in H|]).
    constructor.
  - vm_compute. by left.
Defined.

(** ** Matrix merger: every list of pairs *)

Lemma drop_sublist names (df : DataFrame) : sublist (drop names df) df.
Proof.
  unfold drop. induction df as [|c df IH]; simpl; [constructor|].
  destruct (negb _); by constructor.
Qed.

Lemma columns_set_column name data (df : DataFrame) :
  has_column name df = true -> columns (set_column name data df) = columns df.
Proof.
  intros H. unfold set_column. rewrite H. unfold columns.
  clear H. induction df as [|[n d] df IH]; simpl; [done|].
  destruct (String.eqb name n) eqn:E; simpl; [|by rewrite IH].
  apply String.eqb_eq in E. subst n. by rewrite IH.
Qed.

Lemma columns_sublist (df1 df2 : DataFrame) :
  sublist df1 df2 -> sublist (columns df1) (columns df2).
Proof. unfold columns. induction 1; simpl; by constructor. Qed.

Lemma merge_pair_columns mode (df : DataFrame) pair :
  sublist (columns (merge_pair mode df pair)) (columns df).
Proof.
  destruct pair as [source sink]. unfold merge_pair.
  destruct (negb (has_column source df) || negb (has_column sink df)) eqn:E;
    [done|].
  apply orb_false_elim in E as [_ Hk]. apply negb_false_iff in Hk.
  destruct (get_column source df) as [sourcedata|]; [|done].
  destruct (get_column sink df) as [sinkdata|]; [|done].
  assert (forall d : DataFrame, sublist (columns d) (columns df) ->
            sublist (columns (drop [source] d)) (columns df)) as Hdrop.
  { intros d Hd. etransitivity; [|exact Hd].
    apply columns_sublist, drop_sublist. }
  destruct (String.eqb mode "strict"), (String.eqb mode "lenient");
    try destruct (equals sourcedata sinkdata);
    repeat apply Hdrop; try done;
    by rewrite columns_set_column.
Qed.

Lemma deduplicate_dataframe_columns_sublist
    (df : DataFrame) (pairs_list : list (string * string)) (mode : string) :
  sublist (columns (deduplicate_dataframe df pairs_list mode)) (columns df).
Proof.
  unfold deduplicate_dataframe. revert df.
  induction pairs_list as [|p ps IH]; intros df; simpl; [done|].
  etransitivity; [apply IH | apply merge_pair_columns].
Qed.

(** X3: whatever the pairs and the mode, [deduplicate_dataframe] never adds,
    renames or reorders a column: the column names of the result are those
    of the input with some left out, and they stay unique when they were. *)
Theorem deduplicate_dataframe_columns
    (df : DataFrame) (pairs_list : list (string * string)) (mode : string) :
  sublist (columns (deduplicate_dataframe df pairs_list mode)) (columns df) /\
  (NoDup (columns df) ->
   NoDup (columns (deduplicate_dataframe df pairs_list mode))).
Proof.
  pose proof (deduplicate_dataframe_columns_sublist df pairs_list mode) as H.
  split; [exact H | intros Hnd; by eapply sublist_NoDup].
Qed.

Lemma deduplicate_dataframe_columns_witness :
  NoDup (columns (deduplicate_dataframe
                    [("grow", [1; 0]); ("grows", [0; 1]); ("growth", [1; 1])]
                    [("grow", "growth"); ("grows", "growth")] "strict")).
Proof.
  refine (proj2 (deduplicate_dataframe_columns _ _ _) _).
  apply (bool_decide_unpack _). vm_compute. exact I.
Defined.

Lemma merge_pair_lenient_sublist (df : DataFrame) pair :
  sublist (merge_pair "lenient" df pair) df.
Proof.
  destruct pair as [source sink]. unfold merge_pair.
  destruct (negb (has_column source df) || negb (has_column sink df)); [done|].
  destruct (get_column source df) as [sourcedata|]; [|done].
  destruct (get_column sink df) as [sinkdata|]; [|done].
  simpl. destruct (equals sourcedata sinkdata); [apply drop_sublist | done].
Qed.

Lemma get_column_In (df : DataFrame) name data :
  NoDup (columns df) -> In (name, data) df -> get_column name df = Some data.
Proof.
  unfold get_column, columns.
  induction df as [|[n d] df IH]; simpl; [done|].
  intros Hnd Hin. apply NoDup_cons in Hnd as [Hn Hnd].
  destruct (String.eqb name n) eqn:E.
  - apply String.eqb_eq in E. subst n.
    destruct Hin as [[= ->]|Hin]; [done|].
    exfalso. apply Hn. apply list_elem_of_In.
    apply in_map_iff. by exists (name, data).
  - destruct Hin as [[= -> ->]|Hin]; [by rewrite String.eqb_refl in E|].
    by apply IH.
Qed.

Lemma get_column_Some_In (df : DataFrame) name data :
  get_column name df = Some data -> In (name, data) df.
Proof.
  unfold get_column. destruct (List.find _ df) as [[n d]|] eqn:Hf; [|done].
  intros [= <-]. apply find_some in Hf as [Hin E].
  apply String.eqb_eq in E. simpl in E. by subst n.
Qed.

Lemma deduplicate_lenient_sublist
    (df : DataFrame) (pairs_list : list (string * string)) :
  sublist (deduplicate_dataframe df pairs_list "lenient") df.
Proof.
  unfold deduplicate_dataframe. revert df.
  induction pairs_list as [|p ps IH]; intros df; cbn [fold_left]; [done|].
  etransitivity; [apply IH | apply merge_pair_lenient_sublist].
Qed.

Lemma get_column_of_sublist (df1 df2 : DataFrame) name data :
  NoDup (columns df2) -> sublist df1 df2 ->
  get_column name df1 = Some data -> get_column name df2 = Some data.
Proof.
  intros Hnd Hsub Hget. apply get_column_In; [done|].
  apply get_column_Some_In in Hget.
  apply list_elem_of_In. eapply elem_of_sublist; [|exact Hsub].
  by apply list_elem_of_In.
Qed.

(** X4: in "lenient" mode [deduplicate_dataframe] never changes a value:
    for every list of pairs the result consists of columns of the input,
    name and values as they were and in their order, with some columns left
    out; with unique column names, a column read from the result holds what
    the column of that name holds in the input. *)
Theorem lenient_merge_only_removes
    (df : DataFrame) (pairs_list : list (string * string)) :
  sublist (deduplicate_dataframe df pairs_list "lenient") df /\
  (NoDup (columns df) ->
   forall name data,
     get_column name (deduplicate_dataframe df pairs_list "lenient") = Some data ->
     get_column name df = Some data).
Proof.
  pose proof (deduplicate_lenient_sublist df pairs_list) as Hsub.
  split; [exact Hsub|].
  intros Hnd name data. by apply get_column_of_sublist.
Qed.

Lemma lenient_merge_only_removes_witness :
  get_column "growth" [("grow", [1; 0]); ("growth", [1; 0])] = Some [1; 0].
Proof.
  refine (proj2 (lenient_merge_only_removes
                   [("grow", [1; 0]); ("growth", [1; 0])] [("grow", "growth")])
            _ "growth" [1; 0] _).
  - apply (bool_decide_unpack _). vm_compute. exact I.
  - reflexivity.
Defined.

(** X5: a mode that is neither "strict" nor "lenient" is not refused: the
    call returns the frame as it was given, whatever the pairs. *)
Theorem unknown_mode_changes_nothing
    (df : DataFrame) (pairs_list : list (string * string)) (mode : string) :
  mode <> "strict" -> mode <> "lenient" ->
  deduplicate_dataframe df pairs_list mode = df.
Proof.
  intros Hs Hl. apply String.eqb_neq in Hs, Hl.
  unfold deduplicate_dataframe.
  induction pairs_list as [|[source sink] ps IH]; cbn [fold_left]; [done|].
  assert (merge_pair mode df (source, sink) = df) as ->; [|exact IH].
  unfold merge_pair. rewrite Hs, Hl.
  destruct (negb (has_column source df) || negb (has_column sink df)); [done|].
  by destruct (get_column source df), (get_column sink df).
Qed.

Lemma unknown_mode_changes_nothing_witness :
  deduplicate_dataframe [("grow", [1; 0]); ("growth", [1; 0])]
    [("grow", "growth")] "Strict"
  = [("grow", [1; 0]); ("growth", [1; 0])].
Proof.
  apply (unknown_mode_changes_nothing _ _ "Strict"); discriminate.
Defined.

Lemma has_column_sublist name (df1 df2 : DataFrame) :
  sublist (columns df1) (columns df2) ->
  has_column name df2 = false -> has_column name df1 = false.
Proof.
  unfold has_column. intros Hsub H.
  destruct (existsb (String.eqb name) (columns df1)) eqn:E; [|done].
  apply existsb_exists in E as (x & Hx & Ex).
  assert (existsb (String.eqb name) (columns df2) = true); [|congruence].
  apply existsb_exists. exists x. split; [|done].
  apply list_elem_of_In. eapply elem_of_sublist; [|exact Hsub].
  by apply list_elem_of_In.
Qed.

(** A pair that has a column missing stays that way along the loop. *)
Lemma skipped_stays_skipped mode (df : DataFrame) ps source sink :
  has_column source df = false \/ has_column sink df = false ->
  has_column source (deduplicate_dataframe df ps mode) = false \/
  has_column sink (deduplicate_dataframe df ps mode) = false.
Proof.
  pose proof (deduplicate_dataframe_columns_sublist df ps mode) as Hsub.
  intros [H|H]; [left | right]; by eapply has_column_sublist.
Qed.

Lemma strict_pair_is_spent (df : DataFrame) source sink :
  has_column source (merge_pair "strict" df (source, sink)) = false \/
  has_column sink (merge_pair "strict" df (source, sink)) = false.
Proof.
  destruct (has_column source df) eqn:Hs;
    [|rewrite merge_pair_absent by (by left); by left].
  destruct (has_column sink df) eqn:Hk;
    [|rewrite merge_pair_absent by (by right); by right].
  apply has_column_get in Hs as [sourcedata Hs].
  apply has_column_get in Hk as [sinkdata Hk].
  rewrite (merge_pair_present _ _ _ _ _ _ Hs Hk). simpl.
  left. apply has_column_false, get_column_drop_same. by left.
Qed.

Lemma strict_pairs_are_spent (df : DataFrame) ps :
  Forall (fun p => has_column (fst p) (deduplicate_dataframe df ps "strict") = false \/
                   has_column (snd p) (deduplicate_dataframe df ps "strict") = false)
         ps.
Proof.
  revert df. induction ps as [|[source sink] ps IH]; intros df; [constructor|].
  unfold deduplicate_dataframe. cbn [fold_left].
  fold (deduplicate_dataframe (merge_pair "strict" df (source, sink)) ps "strict").
  constructor; [|apply IH].
  apply skipped_stays_skipped, strict_pair_is_spent.
Qed.

Lemma all_skipped mode (df : DataFrame) ps :
  Forall (fun p => has_column (fst p) df = false \/
                   has_column (snd p) df = false) ps ->
  deduplicate_dataframe df ps mode = df.
Proof.
  unfold deduplicate_dataframe.
  induction 1 as [|[source sink] ps Hp Hps IH]; cbn [fold_left]; [done|].
  by rewrite merge_pair_absent.
Qed.

(** X6: the strict merge is idempotent: applying the same list of pairs to
    its own result changes nothing, every pair having lost its source (or
    having been skipped for a column that does not come back). *)
Theorem strict_merge_idempotent
    (df : DataFrame) (pairs_list : list (string * string)) :
  deduplicate_dataframe (deduplicate_dataframe df pairs_list "strict")
    pairs_list "strict"
  = deduplicate_dataframe df pairs_list "strict".
Proof. apply all_skipped, strict_pairs_are_spent. Qed.

Lemma Forall_of_sublist {A : Type} (P : A -> Prop) (l1 l2 : list A) :
  sublist l1 l2 -> Forall P l2 -> Forall P l1.
Proof.
  intros Hsub H. rewrite Forall_forall in *.
  intros x Hx. apply H. by eapply elem_of_sublist.
Qed.

Lemma merge_pair_rows mode (df : DataFrame) pair (n : nat) :
  Forall (fun c => List.length (snd c) = n) df ->
  Forall (fun c => List.length (snd c) = n) (merge_pair mode df pair).
Proof.
  intros Hrect. destruct pair as [source sink]. unfold merge_pair.
  destruct (negb (has_column source df) || negb (has_column sink df)); [done|].
  destruct (get_column source df) as [sourcedata|] eqn:Hs; [|done].
  destruct (get_column sink df) as [sinkdata|] eqn:Hk; [|done].
  assert (List.length sinkdata = n) as Hlen.
  { unfold get_column in Hk.
    destruct (List.find _ df) as [c|] eqn:Hf; [|done].
    apply find_some in Hf as [Hin _]. injection Hk as <-.
    rewrite Forall_forall in Hrect. apply Hrect. by apply list_elem_of_In. }
  assert (forall d : DataFrame, Forall (fun c => List.length (snd c) = n) d ->
            Forall (fun c => List.length (snd c) = n) (drop [source] d)) as Hdrop.
  { intros d Hd. eapply Forall_of_sublist; [apply drop_sublist | exact Hd]. }
  assert (Forall (fun c => List.length (snd c) = n)
            (set_column sink (strict_rows sourcedata sinkdata) df)) as Hset.
  { unfold set_column. destruct (has_column sink df).
    - apply Forall_forall. intros c Hc. apply list_elem_of_In in Hc.
      apply in_map_iff in Hc as (c0 & <- & Hc0).
      destruct (String.eqb sink (fst c0)); simpl.
      + by rewrite strict_rows_length.
      + rewrite Forall_forall in Hrect. apply Hrect. by apply list_elem_of_In.
    - apply Forall_app. split; [done|]. constructor; [|done]. simpl.
      by rewrite strict_rows_length. }
  destruct (String.eqb mode "strict"), (String.eqb mode "lenient");
    try destruct (equals sourcedata sinkdata); auto.
Qed.

(** X7: the merge keeps the frame rectangular: when every column of the
    input has [n] rows, every column of the result has [n] rows, whatever
    the pairs and the mode. *)
Theorem deduplicate_dataframe_keeps_row_count
    (df : DataFrame) (pairs_list : list (string * string)) (mode : string)
    (n : nat) :
  Forall (fun c => List.length (snd c) = n) df ->
  Forall (fun c => List.length (snd c) = n)
         (deduplicate_dataframe df pairs_list mode).
Proof.
  unfold deduplicate_dataframe. revert df.
  induction pairs_list as [|p ps IH]; intros df H; cbn [fold_left]; [done|].
  by apply IH, merge_pair_rows.
Qed.

Lemma deduplicate_dataframe_keeps_row_count_witness :
  Forall (fun c => List.length (snd c) = 2%nat)
         (deduplicate_dataframe
            [("grow", [1; 0]); ("grows", [0; 1]); ("growth", [1; 1])]
            [("grow", "growth"); ("grows", "growth")] "strict").
Proof.
  apply deduplicate_dataframe_keeps_row_count.
  repeat constructor.
Defined.

(** ** Column filters: what is kept and what is dropped *)

Lemma drop_ext names1 names2 (df : DataFrame) :
  (forall c, In c df -> In (fst c) names1 <-> In (fst c) names2) ->
  drop names1 df = drop names2 df.
Proof.
  intros H. unfold drop. apply filter_ext_in. intros c Hc. f_equal.
  specialize (H c Hc).
  destruct (existsb (String.eqb (fst c)) names1) eqn:E1,
           (existsb (String.eqb (fst c)) names2) eqn:E2; try done.
  - apply existsb_exists in E1 as (x & Hx & Ex). apply String.eqb_eq in Ex.
    subst x. apply H in Hx.
    assert (existsb (String.eqb (fst c)) names2 = true); [|congruence].
    apply existsb_exists. exists (fst c). split; [done | apply String.eqb_refl].
  - apply existsb_exists in E2 as (x & Hx & Ex). apply String.eqb_eq in Ex.
    subst x. apply H in Hx.
    assert (existsb (String.eqb (fst c)) names1 = true); [|congruence].
    apply existsb_exists. exists (fst c). split; [done | apply String.eqb_refl].
Qed.

Lemma drop_as_filter names (df : DataFrame) (keep : string * column -> bool) :
  (forall c, In c df -> In (fst c) names <-> keep c = false) ->
  drop names df = List.filter keep df.
Proof.
  intros H. unfold drop. apply filter_ext_in. intros c Hc.
  specialize (H c Hc).
  destruct (existsb (String.eqb (fst c)) names) eqn:E; simpl.
  - apply existsb_exists in E as (x & Hx & Ex). apply String.eqb_eq in Ex.
    subst x. apply H in Hx. by rewrite Hx.
  - destruct (keep c) eqn:Ek; [done|].
    destruct H as [_ H]. specialize (H eq_refl).
    assert (existsb (String.eqb (fst c)) names = true); [|congruence].
    apply existsb_exists. exists (fst c). split; [done | apply String.eqb_refl].
Qed.

Lemma drop_drop names1 names2 (df : DataFrame) :
  drop names2 (drop names1 df) = drop (names1 ++ names2) df.
Proof.
  unfold drop. induction df as [|c df IH]; simpl; [done|].
  rewrite existsb_app.
  destruct (existsb (String.eqb (fst c)) names1); simpl; [exact IH|].
  destruct (existsb (String.eqb (fst c)) names2); simpl; [exact IH|].
  by rewrite IH.
Qed.

(** X8: on a frame with unique column names [drop_0_columns] leaves exactly
    the columns that hold a value other than 0, unchanged and in their
    order; running it again changes nothing; a frame without rows loses
    every column. *)
Theorem drop_0_columns_keeps_observed (df : DataFrame) :
  NoDup (columns df) ->
  drop_0_columns df
  = List.filter (fun c => negb (forallb (Z.eqb 0) (snd c))) df /\
  drop_0_columns (drop_0_columns df) = drop_0_columns df /\
  (Forall (fun c => snd c = []) df -> drop_0_columns df = []).
Proof.
  assert (forall d : DataFrame, NoDup (columns d) ->
            drop_0_columns d
            = List.filter (fun c => negb (forallb (Z.eqb 0) (snd c))) d) as Hchar.
  { intros d Hnd. unfold drop_0_columns. apply drop_as_filter.
    intros [n data] Hc. simpl. unfold zero_columns, columns.
    rewrite in_map_iff, negb_false_iff. split.
    - intros ([n' data'] & E & Hin). simpl in E. subst n'.
      apply filter_In in Hin as [Hin Hz]. simpl in Hz.
      apply (get_column_In d _ _ Hnd) in Hin, Hc. congruence.
    - intros Hz. exists (n, data). split; [done|].
      apply filter_In. by split. }
  intros Hnd. split; [by apply Hchar|]. split.
  - rewrite (Hchar df Hnd). rewrite Hchar.
    + clear. induction df as [|c df IH]; simpl; [done|].
      destruct (negb (forallb (Z.eqb 0) (snd c))) eqn:E; simpl;
        [by rewrite E, IH | exact IH].
    + apply (sublist_NoDup _ (columns df)); [exact Hnd|].
      apply columns_sublist. rewrite <- (Hchar df Hnd).
      apply drop_sublist.
  - intros Hrows. rewrite (Hchar df Hnd).
    clear Hnd Hchar. induction Hrows as [|c df Hc Hrows IH]; simpl; [done|].
    by rewrite Hc.
Qed.

Lemma drop_0_columns_keeps_observed_witness :
  drop_0_columns [("seen", [1; 2]); ("unseen", [0; 0]); ("once", [0; 1])]
  = [("seen", [1; 2]); ("once", [0; 1])].
Proof.
  refine (proj1 (drop_0_columns_keeps_observed _ _)).
  apply (bool_decide_unpack _). vm_compute. exact I.
Defined.

Lemma count_fold_In (df : DataFrame) cols acc name count :
  In (name, count) (fold_left (count_column df) cols acc) <->
  In (name, count) acc \/
  (In name cols /\ 0 < count /\
   exists data, get_column name df = Some data /\ sum data = count).
Proof.
  revert acc. induction cols as [|a cols IH]; intros acc; cbn [fold_left].
  - simpl. tauto.
  - rewrite IH. unfold count_column. simpl.
    destruct (get_column a df) as [d|] eqn:Ha.
    + destruct (sum d >? 0) eqn:Epos.
      * apply Z.gtb_lt in Epos. rewrite in_app_iff. simpl. split.
        -- intros [[H|[[= <- <-]|[]]]|H]; [tauto | | tauto].
           right. split; [by left|]. split; [done|]. by exists d.
        -- intros [H|([->|H1] & H2 & data & H3 & H4)]; [tauto | | ].
           ++ left. right. left. congruence.
           ++ right. split; [done|]. split; [done|]. by exists data.
      * split; [tauto|].
        intros [H|([->|H1] & H2 & data & H3 & H4)]; [tauto | | ].
        -- rewrite Ha in H3. injection H3 as <-. subst count.
           destruct (Z.gtb_spec (sum d) 0); [done | lia].
        -- right. split; [done|]. split; [done|]. by exists data.
    + split; [tauto|].
      intros [H|([->|H1] & H2 & data & H3 & H4)]; [tauto | congruence | ].
      right. split; [done|]. split; [done|]. by exists data.
Qed.

(** The int64 total of a column is the integer total of its cells wrapped
    into the int64 range, in whatever order the cells are added. *)
Lemma sum_is_wrapped_total col : sum col = wrap64 (column_total col).
Proof.
  unfold sum.
  assert (forall a x, wrap64 (wrap64 a + x) = wrap64 (a + x)) as Hwrap.
  { intros a x. unfold wrap64. f_equal.
    replace ((a + 2 ^ 63) mod 2 ^ 64 - 2 ^ 63 + x + 2 ^ 63)
      with ((a + 2 ^ 63) mod 2 ^ 64 + x) by lia.
    rewrite Z.add_mod_idemp_l by lia. f_equal. lia. }
  assert (forall acc, fold_left (fun acc x => wrap64 (acc + x)) col (wrap64 acc)
                      = wrap64 (acc + column_total col)) as H.
  { induction col as [|x col IH]; intros acc; cbn [fold_left].
    - unfold column_total. simpl. by rewrite Z.add_0_r.
    - rewrite Hwrap, IH. f_equal. unfold column_total. simpl. lia. }
  exact (H 0).
Qed.

(** X9: [count_tag_occurrence] lists exactly the columns after the first one
    whose int64 total ([sum], which wraps around) is positive, each with
    that total, largest total first; the first column and the columns with
    total 0 (or less) are not listed. *)
Theorem count_tag_occurrence_lists_positive_totals
    (df : DataFrame) (name : string) (count : Z) :
  (In (name, count) (count_tag_occurrence df) <->
   In name (List.tl (columns df)) /\ 0 < count /\
   exists data, get_column name df = Some data /\ sum data = count) /\
  descending snd (count_tag_occurrence df).
Proof.
  split; [|apply sorted_desc_descending].
  unfold count_tag_occurrence.
  pose proof (sorted_desc_perm snd
                (fold_left (count_column df) (List.tl (columns df)) [])) as Hp.
  split.
  - intros H. apply (Permutation_in _ Hp) in H.
    apply count_fold_In in H as [[]|H]. exact H.
  - intros H. apply (Permutation_in _ (Permutation_sym Hp)).
    apply count_fold_In. by right.
Qed.

(** A column whose cells add up to 2^63 has the int64 total -2^63 and is
    not listed. *)
Example count_tag_occurrence_wraps :
  sum [2 ^ 62; 2 ^ 62] = - 2 ^ 63 /\
  count_tag_occurrence
    [("id", [0; 0]); ("big", [2 ^ 62; 2 ^ 62]); ("grow", [1; 0])]
  = [("grow", 1)].
Proof. split; reflexivity. Qed.

Lemma count_fold_or_sorted (df : DataFrame) name :
  In (name, 1) (count_tag_occurrence df) <->
  In name (List.tl (columns df)) /\
  exists data, get_column name df = Some data /\ sum data = 1.
Proof.
  unfold count_tag_occurrence.
  pose proof (sorted_desc_perm snd
                (fold_left (count_column df) (List.tl (columns df)) [])) as Hp.
  split.
  - intros H. apply (Permutation_in _ Hp) in H.
    apply count_fold_In in H as [[]|(H1 & _ & H2)]. by split.
  - intros [H1 H2]. apply (Permutation_in _ (Permutation_sym Hp)).
    apply count_fold_In. right. split; [done|]. split; [lia | done].
Qed.

Lemma drop_if_unique_fold counts (df : DataFrame) :
  fold_left drop_if_unique counts df
  = drop (List.map fst (List.filter (fun e => snd e =? 1) counts)) df.
Proof.
  revert df. induction counts as [|[item count] counts IH]; intros df;
    cbn [fold_left].
  - unfold drop. simpl. symmetry. clear.
    induction df as [|c df IH]; simpl; [done | by rewrite IH].
  - rewrite IH. unfold drop_if_unique. simpl.
    destruct (count =? 1); simpl; [|done].
    apply drop_drop.
Qed.

(** X10: on a frame with unique column names [drop_unique_columns] returns
    the first column followed by exactly those other columns whose int64
    total ([sum], which wraps around) is not 1, unchanged and in their
    order: a column is dropped for its total, so one observation of value 2
    is kept and the values [2, -1] are dropped. An empty frame is returned
    empty. *)
Theorem drop_unique_columns_drops_total_one
    (first : string * column) (rest : DataFrame) :
  NoDup (columns (first :: rest)) ->
  drop_unique_columns (first :: rest)
  = first :: List.filter (fun c => negb (sum (snd c) =? 1)) rest /\
  drop_unique_columns [] = [].
Proof.
  intros Hnd. split; [|reflexivity].
  unfold drop_unique_columns. rewrite drop_if_unique_fold.
  set (names := List.map fst _).
  assert (forall n, In n names <->
            In n (columns rest) /\
            exists data, get_column n (first :: rest) = Some data /\
                         sum data = 1) as Hnames.
  { intros n. unfold names. rewrite in_map_iff. split.
    - intros ([n' c] & E & Hin). simpl in E. subst n'.
      apply filter_In in Hin as [Hin Hc]. simpl in Hc.
      apply Z.eqb_eq in Hc. subst c.
      apply count_fold_or_sorted in Hin. exact Hin.
    - intros (Hin & data & Hget & Hsum). exists (n, 1). split; [done|].
      apply filter_In. split; [|done].
      apply count_fold_or_sorted. split; [exact Hin|].
      exists data. by split. }
  pose proof Hnd as Hnd'. simpl in Hnd'. apply NoDup_cons in Hnd' as [Hfirst Hrest].
  destruct first as [n0 d0]. simpl in Hfirst.
  rewrite drop_head_other.
  2:{ intros Hin. apply Hnames in Hin as [Hin _].
      apply Hfirst. by apply list_elem_of_In. }
  f_equal. apply drop_as_filter. intros [n d] Hc. simpl.
  rewrite Hnames, negb_false_iff, Z.eqb_eq.
  assert (get_column n ((n0, d0) :: rest) = Some d) as Hget.
  { apply get_column_In; [exact Hnd | by right]. }
  split.
  - intros (_ & data & Hget' & Hsum). congruence.
  - intros Hsum. split.
    + apply in_map_iff. by exists (n, d).
    + by exists d.
Qed.

Lemma drop_unique_columns_drops_total_one_witness :
  drop_unique_columns
    [("solo", [0; 1; 0]); ("once", [1; 0; 0]); ("twice", [1; 1; 0]);
     ("heavy", [0; 2; 0]); ("net", [2; -1; 0])]
  = [("solo", [0; 1; 0]); ("twice", [1; 1; 0]); ("heavy", [0; 2; 0])].
Proof.
  refine (proj1 (drop_unique_columns_drops_total_one ("solo", [0; 1; 0]) _ _)).
  apply (bool_decide_unpack _). vm_compute. exact I.
Defined.

(** A column whose cells add up to 2^64 + 1 has the int64 total 1 and is
    dropped. *)
Example drop_unique_columns_wraps :
  drop_unique_columns
    [("id", [0; 0; 0; 0; 0]);
     ("big", [2 ^ 62; 2 ^ 62; 2 ^ 62; 2 ^ 62; 1]);
     ("twice", [1; 1; 0; 0; 0])]
  = [("id", [0; 0; 0; 0; 0]); ("twice", [1; 1; 0; 0; 0])].
Proof. reflexivity. Qed.

(** ** Conjugation deduplicator: what is paired and what is accepted *)

Lemma prefix_refl s : String.prefix s s = true.
Proof.
  induction s as [|c s IH]; simpl; [done|].
  by destruct (ascii_dec c c).
Qed.

Lemma prefix_length a b :
  String.prefix a b = true -> (String.length a <= String.length b)%nat.
Proof.
  revert b. induction a as [|c a IH]; intros [|c' b]; simpl; try done; try lia.
  destruct (ascii_dec c c'); [|done]. intros H. apply IH in H. lia.
Qed.

Lemma prefix_same_length a b :
  String.prefix a b = true -> (String.length b <= String.length a)%nat -> a = b.
Proof.
  revert b. induction a as [|c a IH]; intros [|c' b]; simpl; try done; try lia.
  destruct (ascii_dec c c') as [->|]; [|done].
  intros H Hlen. f_equal. apply IH; [done | lia].
Qed.

(** Among tags met longest first the duplicate test is the leading-part
    test. *)
Lemma is_conjugation_longer w e :
  (String.length w <= String.length e)%nat ->
  is_conjugation w e = String.prefix w e.
Proof.
  intros Hlen. rewrite is_conjugation_either_prefix_aux.
  destruct (String.prefix w e) eqn:E1; [done|]. simpl.
  destruct (String.prefix e w) eqn:E2; [|done].
  apply prefix_same_length in E2; [|done]. subst e.
  by rewrite prefix_refl in E1.
Qed.

Section FlatRun.

Variable set_iter : list string -> list string.
Hypothesis set_iter_perm : forall l, Permutation (set_iter l) l.

Lemma find_set_iter_Some (f : string -> bool) P e :
  List.find f (set_iter P) = Some e -> In e P /\ f e = true.
Proof.
  intros H. apply find_some in H as [Hin Hf]. split; [|done].
  by apply (Permutation_in _ (set_iter_perm P)).
Qed.

Lemma find_set_iter_None (f : string -> bool) P e :
  List.find f (set_iter P) = None -> In e P -> f e = false.
Proof.
  intros H Hin. eapply find_none; [exact H|].
  by apply (Permutation_in _ (Permutation_sym (set_iter_perm P))).
Qed.

(** A run of the loop over tags that come longest first, from a set whose
    members are at least as long as every tag to come. *)
Lemma flat_run (L : list string) :
  forall p d q,
    descending (fun a => py_len (Word a)) L ->
    (forall e w, In e p -> In w L ->
                 (String.length w <= String.length e)%nat) ->
    exists A new,
      fold_left (fun st word => loop_body set_iter word st) (List.map Word L)
                (LoopState p d q)
      = LoopState (p ++ A) (d ++ List.map Word A) (q ++ new) /\
      sublist A L /\
      Permutation L (A ++ List.map fst new) /\
      Forall (fun pr => In (snd pr) (p ++ A) /\
                        String.prefix (fst pr) (snd pr) = true) new /\
      (forall (i : nat) a e, A !! i = Some a -> In e (p ++ take i A) ->
                             String.prefix a e = false) /\
      (forall w, In w L -> exists e, In e (p ++ A) /\ String.prefix w e = true).
Proof.
  induction L as [|w L IH]; intros p d q Hdesc Hlong.
  - exists [], []. rewrite !app_nil_r. simpl.
    repeat split; try done; try constructor.
  - apply StronglySorted_inv in Hdesc as [Hdesc Hw].
    assert (forall x, In x L -> (String.length x <= String.length w)%nat) as Hw'.
    { intros x Hx. rewrite Forall_forall in Hw.
      apply list_elem_of_In in Hx. specialize (Hw x Hx). simpl in Hw. lia. }
    cbn [List.map fold_left loop_body processed_prefixes deduplicated
           deleted_pairs].
    destruct (List.find (is_conjugation w) (set_iter p)) as [e|] eqn:Hfind.
    + apply find_set_iter_Some in Hfind as [He Hconj].
      rewrite is_conjugation_longer in Hconj by (apply Hlong; [done | by left]).
      destruct (IH p d (q ++ [(w, e)]) Hdesc) as (A & new & Hrun & Hsub & Hperm & Hpairs & Hfree & Hcover).
      { intros e' w' He' Hw''. apply Hlong; [done | by right]. }
      exists A, ((w, e) :: new).
      split; [by rewrite Hrun, <- app_assoc|].
      split; [by constructor|].
      split; [simpl; by apply Permutation_cons_app|].
      split; [constructor; [|done]; simpl; split; [apply in_app_iff; by left | done]|].
      split; [exact Hfree|].
      intros w' [<-|Hw'']; [|by apply Hcover].
      exists e. split; [apply in_app_iff; by left | done].
    + destruct (IH (p ++ [w]) (d ++ [Word w]) q Hdesc) as (A & new & Hrun & Hsub & Hperm & Hpairs & Hfree & Hcover).
      { intros e' w' He' Hw''. apply in_app_iff in He' as [He'|[<-|[]]].
        - apply Hlong; [done | by right].
        - by apply Hw'. }
      exists (w :: A), new.
      split; [rewrite Hrun; simpl; by rewrite <- !app_assoc|].
      split; [by constructor|].
      split; [simpl; by constructor|].
      split.
      { eapply Forall_impl; [exact Hpairs|]. simpl.
        intros pr [H1 H2]. split; [|done]. by rewrite <- app_assoc in H1. }
      split.
      { intros [|i] a e Hi He.
        - injection Hi as <-. simpl in He. rewrite app_nil_r in He.
          rewrite <- (is_conjugation_longer w e)
            by (apply Hlong; [done | by left]).
          by apply (find_set_iter_None _ p).
        - simpl in Hi, He. apply (Hfree i a e Hi).
          by rewrite <- app_assoc. }
      intros w' [<-|Hw''].
      * exists w. split; [|apply prefix_refl].
        apply in_app_iff. right. by left.
      * destruct (Hcover w' Hw'') as (e & He & Hp).
        exists e. split; [|done]. by rewrite <- app_assoc in He.
Qed.

End FlatRun.

(** X11: for a list of tags, "pairs" mode returns the pairs it was given
    followed by new ones; in every new pair both tags are tags of the list
    and the first is a leading part of the second; when no tag is listed
    twice the two tags of a pair differ and the second tag of a pair is
    never the first tag of a pair: sinks are accepted tags. *)
Theorem flat_pairs_are_prefix_pairs
    (set_iter : list string -> list string) (ws : list string)
    (acc : option (list (string * string))) :
  (forall l, Permutation (set_iter l) l) ->
  exists new,
    deduplicate_tag_conjugations set_iter (List.map Word ws) "pairs" acc
    = (Pairs (default [] acc ++ new), default [] acc ++ new) /\
    Forall (fun pr => In (fst pr) ws /\ In (snd pr) ws /\
                      String.prefix (fst pr) (snd pr) = true) new /\
    (NoDup ws ->
     Forall (fun pr => fst pr <> snd pr /\
                       ~ In (snd pr) (List.map fst new)) new).
Proof.
  intros Hperm.
  unfold deduplicate_tag_conjugations, run_loop, fresh_state.
  rewrite (sorted_desc_map py_len Word ws).
  set (L := sorted_desc (fun a => py_len (Word a)) ws).
  assert (Permutation L ws) as HL by apply sorted_desc_perm.
  destruct (flat_run set_iter Hperm L [] [] (default [] acc))
    as (A & new & Hrun & Hsub & Hpart & Hpairs & _ & _).
  { apply sorted_desc_descending. }
  { intros e w []. }
  rewrite Hrun. simpl. exists new. split; [done|].
  assert (forall a, In a A -> In a ws) as HA.
  { intros a Ha. apply (Permutation_in _ HL).
    apply list_elem_of_In. eapply elem_of_sublist; [|exact Hsub].
    by apply list_elem_of_In. }
  assert (forall pr, In pr new -> In (fst pr) (List.map fst new)) as Hsrc.
  { intros pr Hpr. apply in_map_iff. by exists pr. }
  split.
  - apply Forall_forall. intros pr Hpr. apply list_elem_of_In in Hpr.
    rewrite Forall_forall in Hpairs.
    destruct (Hpairs pr) as [Hsink Hprefix]; [by apply list_elem_of_In|].
    split; [|split; [by apply HA | done]].
    apply (Permutation_in _ HL), (Permutation_in _ (Permutation_sym Hpart)).
    apply in_app_iff. right. by apply Hsrc.
  - intros Hnd.
    assert (NoDup (A ++ List.map fst new)) as Hnd'.
    { rewrite <- Hpart. by rewrite HL. }
    apply NoDup_app in Hnd' as (_ & Hdisj & _).
    apply Forall_forall. intros pr Hpr. apply list_elem_of_In in Hpr.
    rewrite Forall_forall in Hpairs.
    destruct (Hpairs pr) as [Hsink _]; [by apply list_elem_of_In|].
    simpl in Hsink. apply list_elem_of_In in Hsink.
    specialize (Hdisj _ Hsink).
    split.
    + intros E. apply Hdisj. rewrite <- E. apply list_elem_of_In. by apply Hsrc.
    + intros Hin. apply Hdisj. by apply list_elem_of_In.
Qed.

Lemma flat_pairs_are_prefix_pairs_witness :
  exists new,
    deduplicate_tag_conjugations (fun l => l)
      (List.map Word ["plant"; "plants"; "planted"; "grow"]) "pairs" None
    = (Pairs ([] ++ new), [] ++ new) /\
    Forall (fun pr => String.prefix (fst pr) (snd pr) = true) new.
Proof.
  destruct (flat_pairs_are_prefix_pairs (fun l => l)
              ["plant"; "plants"; "planted"; "grow"] None)
    as (new & Hrun & Hpairs & _).
  - intros l. apply Permutation_refl.
  - exists new. split; [exact Hrun|].
    eapply Forall_impl; [exact Hpairs|]. intros pr (_ & _ & H). exact H.
Defined.

Lemma descending_app_r {A : Type} (key : A -> Z) (l1 l2 : list A) :
  descending key (l1 ++ l2) -> descending key l2.
Proof.
  unfold descending. induction l1 as [|x l1 IH]; simpl; [done|].
  intros H. apply StronglySorted_inv in H as [H _]. by apply IH.
Qed.

(** X12: for a list of tags, collapse mode returns tags of the list, longest
    first, of which none is a leading part of another one (so none occurs
    twice), and every tag of the list is a leading part of a returned tag;
    the returned tags and the new pairs together are as many as the tags of
    the list. *)
Theorem flat_collapse_is_prefix_free
    (set_iter : list string -> list string) (ws : list string)
    (method : string) (acc : option (list (string * string))) :
  (forall l, Permutation (set_iter l) l) ->
  method <> "pairs" ->
  exists A new,
    deduplicate_tag_conjugations set_iter (List.map Word ws) method acc
    = (Collapsed (List.map Word A), default [] acc ++ new) /\
    sublist A (sorted_desc (fun a => py_len (Word a)) ws) /\
    (List.length A + List.length new = List.length ws)%nat /\
    (forall (i j : nat) a b, i <> j -> A !! i = Some a -> A !! j = Some b ->
                             String.prefix a b = false) /\
    (forall w, In w ws -> exists a, In a A /\ String.prefix w a = true).
Proof.
  intros Hperm Hmethod. apply String.eqb_neq in Hmethod.
  unfold deduplicate_tag_conjugations, run_loop, fresh_state.
  rewrite Hmethod.
  rewrite (sorted_desc_map py_len Word ws).
  set (L := sorted_desc (fun a => py_len (Word a)) ws).
  assert (Permutation L ws) as HL by apply sorted_desc_perm.
  destruct (flat_run set_iter Hperm L [] [] (default [] acc))
    as (A & new & Hrun & Hsub & Hpart & _ & Hfree & Hcover).
  { apply sorted_desc_descending. }
  { intros e w []. }
  rewrite Hrun. simpl. exists A, new. split; [done|].
  split; [done|].
  split.
  { rewrite <- (Permutation_length HL), (Permutation_length Hpart).
    by rewrite length_app, length_map. }
  assert (descending (fun a => py_len (Word a)) A) as HdescA.
  { eapply descending_sublist; [exact Hsub | apply sorted_desc_descending]. }
  assert (forall (i j : nat) a b, (j < i)%nat -> A !! i = Some a ->
            A !! j = Some b -> String.prefix a b = false) as Hbefore.
  { intros i j a b Hji Hi Hj. apply (Hfree i a b Hi). simpl.
    apply list_elem_of_In. apply list_elem_of_lookup. exists j.
    by rewrite lookup_take_lt. }
  split.
  - intros i j a b Hij Hi Hj.
    destruct (decide (j < i)%nat) as [Hlt|Hge]; [by eapply Hbefore|].
    assert (i < j)%nat as Hlt by lia.
    destruct (String.prefix a b) eqn:E; [|done].
    assert (String.length b <= String.length a)%nat as Hlen.
    { apply list_elem_of_split_length in Hi as (A1 & A2 & -> & Hlen1).
      apply descending_app_r in HdescA. unfold descending in HdescA.
      apply StronglySorted_inv in HdescA as [_ Hall].
      rewrite lookup_app_r in Hj by lia.
      destruct (j - List.length A1)%nat as [|j'] eqn:Ej; [lia|].
      simpl in Hj. rewrite Forall_forall in Hall.
      assert (b ∈ A2) as Hb by (apply list_elem_of_lookup; eauto).
      specialize (Hall b Hb). simpl in Hall. lia. }
    apply prefix_same_length in E; [|done]. subst b.
    pose proof (Hbefore j i a a Hlt Hj Hi) as Hc.
    by rewrite prefix_refl in Hc.
  - intros w Hw. apply (Permutation_in _ (Permutation_sym HL)) in Hw.
    destruct (Hcover w Hw) as (e & He & Hp). by exists e.
Qed.

Lemma flat_collapse_is_prefix_free_witness :
  exists A new,
    deduplicate_tag_conjugations (fun l => l)
      (List.map Word ["plant"; "plants"; "planted"; "grow"]) "" None
    = (Collapsed (List.map Word A), [] ++ new) /\
    (List.length A + List.length new = 4)%nat.
Proof.
  destruct (flat_collapse_is_prefix_free (fun l => l)
              ["plant"; "plants"; "planted"; "grow"] "" None)
    as (A & new & Hrun & _ & Hcount & _).
  - intros l. apply Permutation_refl.
  - discriminate.
  - exists A, new. split; [exact Hrun | exact Hcount].
Defined.

(** ** Conjugation deduplicator: nested lists *)

Lemma item_nested_ind (P : item -> Prop) :
  (forall w, P (Word w)) ->
  (forall ws, Forall P ws -> P (Group ws)) ->
  forall x, P x.
Proof.
  intros HW HG. fix IH 1. intros [w|ws]; [apply HW|].
  apply HG. induction ws as [|x ws IHws]; constructor; [apply IH | exact IHws].
Qed.

Lemma fold_extends_pairs set_iter (l : list item) :
  Forall (fun x => forall st, exists new,
            deleted_pairs (loop_body set_iter x st) = deleted_pairs st ++ new) l ->
  forall st, exists new,
    deleted_pairs (fold_left (fun st word => loop_body set_iter word st) l st)
    = deleted_pairs st ++ new.
Proof.
  induction 1 as [|x l Hx Hl IH]; intros st; cbn [fold_left].
  - exists []. by rewrite app_nil_r.
  - destruct (Hx st) as [new1 H1]. destruct (IH (loop_body set_iter x st)) as [new2 H2].
    exists (new1 ++ new2). by rewrite H2, H1, app_assoc.
Qed.

Lemma loop_body_extends_pairs set_iter (x : item) :
  forall st, exists new,
    deleted_pairs (loop_body set_iter x st) = deleted_pairs st ++ new.
Proof.
  induction x as [w|ws IH] using item_nested_ind; intros st.
  - simpl. destruct (List.find _ _) as [e|]; simpl.
    + by exists [(w, e)].
    + exists []. by rewrite app_nil_r.
  - rewrite loop_body_Group. simpl. unfold run_loop.
    destruct (fold_extends_pairs set_iter (sorted_desc py_len ws))
      with (st := fresh_state (deleted_pairs st)) as [new Hnew].
    + rewrite Forall_forall in *. intros x Hx. apply IH.
      apply list_elem_of_In. apply list_elem_of_In in Hx.
      by apply (Permutation_in _ (sorted_desc_perm py_len ws)).
    + exists new. exact Hnew.
Qed.

(** X13: for every nested list, method and iteration order the call only
    appends to the accumulator: the pairs it was given are still there, in
    their order, at the front; in "pairs" mode the value returned is that
    accumulator. *)
Theorem accumulator_is_only_appended
    (set_iter : list string -> list string) (word_list : list item)
    (method : string) (acc : option (list (string * string))) :
  exists new,
    snd (deduplicate_tag_conjugations set_iter word_list method acc)
    = default [] acc ++ new /\
    fst (deduplicate_tag_conjugations set_iter word_list "pairs" acc)
    = Pairs (snd (deduplicate_tag_conjugations set_iter word_list method acc)).
Proof.
  unfold deduplicate_tag_conjugations, run_loop. simpl.
  destruct (fold_extends_pairs set_iter (sorted_desc py_len word_list))
    with (st := fresh_state (default [] acc)) as [new Hnew].
  { apply Forall_forall. intros x _. apply loop_body_extends_pairs. }
  exists new. split; [exact Hnew | done].
Qed.

Section GroupRun.

Variable set_iter : list string -> list string.
Hypothesis set_iter_perm : forall l, Permutation (set_iter l) l.

(** The loop over groups of tags: the pairs found pair two tags of one
    group. *)
Lemma groups_run (G : list (list string)) :
  forall st, exists new,
    deleted_pairs
      (fold_left (fun st word => loop_body set_iter word st)
                 (List.map (fun g => Group (List.map Word g)) G) st)
    = deleted_pairs st ++ new /\
    Forall (fun pr => exists g, In g G /\ In (fst pr) g /\ In (snd pr) g /\
                                String.prefix (fst pr) (snd pr) = true) new.
Proof.
  induction G as [|g G IH]; intros st; cbn [List.map fold_left].
  - exists []. by rewrite app_nil_r.
  - rewrite loop_body_Group. cbn zeta. unfold run_loop, fresh_state.
    rewrite (sorted_desc_map py_len Word g).
    set (L := sorted_desc (fun a => py_len (Word a)) g).
    assert (Permutation L g) as HL by apply sorted_desc_perm.
    destruct (flat_run set_iter set_iter_perm L [] [] (deleted_pairs st))
      as (A & new1 & Hrun & Hsub & Hpart & Hpairs & _ & _).
    { apply sorted_desc_descending. }
    { intros e w []. }
    rewrite Hrun. cbn [deleted_pairs deduplicated].
    match goal with
    | |- context [fold_left _ _ ?st1] => destruct (IH st1) as (new2 & H2 & Hall2)
    end.
    exists (new1 ++ new2). split; [by rewrite H2; simpl; rewrite app_assoc|].
    apply Forall_app. split.
    + apply Forall_forall. intros pr Hpr.
      rewrite Forall_forall in Hpairs. destruct (Hpairs pr Hpr) as [Hsink Hp].
      exists g. split; [by left|].
      apply list_elem_of_In in Hpr.
      split; [|split; [|done]].
      * apply (Permutation_in _ HL), (Permutation_in _ (Permutation_sym Hpart)).
        apply in_app_iff. right. apply in_map_iff. by exists pr.
      * apply (Permutation_in _ HL). simpl in Hsink.
        apply list_elem_of_In. eapply elem_of_sublist; [|exact Hsub].
        by apply list_elem_of_In.
    + eapply Forall_impl; [exact Hall2|]. simpl.
      intros pr (g' & Hg' & H). exists g'. split; [by right | done].
Qed.

End GroupRun.

(** X14: on the groups of tags that the orchestrator passes, "pairs" mode
    returns only pairs of two tags of one and the same group, the first a
    leading part of the second: tags of different groups are never
    paired. *)
Theorem pairs_stay_within_groups
    (set_iter : list string -> list string) (groups : list (list string)) :
  (forall l, Permutation (set_iter l) l) ->
  exists pairs,
    deduplicate_tag_conjugations set_iter
      (List.map (fun g => Group (List.map Word g)) groups) "pairs" None
    = (Pairs pairs, pairs) /\
    Forall (fun pr => exists g, In g groups /\ In (fst pr) g /\ In (snd pr) g /\
                                String.prefix (fst pr) (snd pr) = true) pairs.
Proof.
  intros Hperm.
  unfold deduplicate_tag_conjugations, run_loop. simpl.
  rewrite (sorted_desc_map py_len (fun g => Group (List.map Word g)) groups).
  set (G := sorted_desc _ groups).
  assert (Permutation G groups) as HG by apply sorted_desc_perm.
  destruct (groups_run set_iter Hperm G (fresh_state [])) as (new & Hnew & Hall).
  simpl in Hnew. rewrite Hnew. exists new. split; [done|].
  eapply Forall_impl; [exact Hall|]. simpl.
  intros pr (g & Hg & H). exists g. split; [|done].
  by apply (Permutation_in _ HG).
Qed.

Lemma pairs_stay_within_groups_witness :
  exists pairs,
    deduplicate_tag_conjugations (fun l => l)
      (List.map (fun g => Group (List.map Word g))
         [["grow"; "growth"]; ["grows"; "plant"; "plants"]]) "pairs" None
    = (Pairs pairs, pairs).
Proof.
  destruct (pairs_stay_within_groups (fun l => l)
              [["grow"; "growth"]; ["grows"; "plant"; "plants"]])
    as (pairs & Hrun & _).
  - intros l. apply Permutation_refl.
  - exists pairs. exact Hrun.
Defined.

(** ** Manual resolution: input, case and totals *)

(** X15: when the operator's input is exhausted, the manual resolution
    succeeds exactly when no pair has to be offered, that is when every
    pair names a column that is absent; it then returns the matrix as it
    is, without a prompt. With a pair to offer the call fails (the
    [EOFError] of [input]). *)
Theorem manual_deduplication_without_input
    (tuples : list (string * string)) (df : DataFrame) (c : console) :
  stdin c = [] ->
  manual_deduplication tuples df c
  = if forallb (fun p => negb (has_column (fst p) df && has_column (snd p) df))
               tuples
    then Some (df, c) else None.
Proof.
  intros Hin. induction tuples as [|[source sink] rest IH]; [done|].
  cbn [manual_deduplication forallb fst snd].
  destruct (get_column source df) as [sourcedata|] eqn:Hs.
  - assert (has_column source df = true) as -> by (apply has_column_get; eauto).
    destruct (get_column sink df) as [sinkdata|] eqn:Hk.
    + assert (has_column sink df = true) as -> by (apply has_column_get; eauto).
      simpl. unfold input. by rewrite Hin.
    + apply has_column_false in Hk. rewrite Hk. simpl. exact IH.
  - apply has_column_false in Hs. rewrite Hs. simpl. exact IH.
Qed.

Lemma manual_deduplication_without_input_witness :
  manual_deduplication [("grow", "grows"); ("plant", "plants")]
    [("grow", [1]); ("plants", [2])] (Console [] [])
  = Some ([("grow", [1]); ("plants", [2])], Console [] []).
Proof.
  exact (manual_deduplication_without_input
           [("grow", "grows"); ("plant", "plants")]
           [("grow", [1]); ("plants", [2])] (Console [] []) eq_refl).
Defined.

Lemma lower_ascii_idem ch : lower_ascii (lower_ascii ch) = lower_ascii ch.
Proof. destruct ch as [[] [] [] [] [] [] [] []]; reflexivity. Qed.

Lemma lower_idem s : lower (lower s) = lower s.
Proof.
  induction s as [|ch s IH]; simpl; [done|].
  by rewrite lower_ascii_idem, IH.
Qed.

(** X16: the answers are read without regard to case: typing every answer
    in lower case leads to the same matrix and the same messages. *)
Theorem manual_deduplication_ignores_case
    (tuples : list (string * string)) (df : DataFrame)
    (answers written : list string) :
  (fun r => (fst r, stdout (snd r)))
    <$> manual_deduplication tuples df (Console answers written)
  = (fun r => (fst r, stdout (snd r)))
    <$> manual_deduplication tuples df (Console (List.map lower answers) written).
Proof.
  revert df answers written.
  induction tuples as [|[source sink] rest IH]; intros df answers written;
    [done|].
  cbn [manual_deduplication].
  destruct (get_column source df) as [sourcedata|]; [|apply IH].
  destruct (get_column sink df) as [sinkdata|]; [|apply IH].
  destruct answers as [|line answers]; [done|].
  unfold input. cbn [stdin stdout List.map mbind option_bind].
  rewrite lower_idem.
  destruct (String.eqb (lower line) "y"); [apply IH|].
  destruct (String.eqb (lower line) "n"); [done|].
  destruct (String.eqb (lower line) "q"); [done|].
  apply IH.
Qed.

Lemma wrap64_multiple z : exists q, wrap64 z = z + 2 ^ 64 * q.
Proof.
  unfold wrap64. exists (- ((z + 2 ^ 63) / 2 ^ 64)).
  pose proof (Z.div_mod (z + 2 ^ 63) (2 ^ 64)) as H. lia.
Qed.

Lemma wrap64_small z : - 2 ^ 63 <= z < 2 ^ 63 -> wrap64 z = z.
Proof. intros H. unfold wrap64. rewrite Z.mod_small; lia. Qed.

(** Added row by row in int64, two columns of equal length give a column
    whose cells add up to the two totals, up to a multiple of 2^64. *)
Lemma column_total_add a b :
  List.length a = List.length b ->
  exists q, column_total (add a b) = column_total a + column_total b + 2 ^ 64 * q.
Proof.
  unfold add. revert b. induction a as [|x a IH]; intros [|y b]; simpl;
    try done.
  - intros _. exists 0. lia.
  - intros [= Hlen]. destruct (IH b Hlen) as [q1 H1].
    destruct (wrap64_multiple (x + y)) as [q2 H2].
    exists (q1 + q2). unfold column_total in *. lia.
Qed.

(** Without overflow the row-wise addition is the addition of integers. *)
Lemma add_exact a b :
  List.length a = List.length b ->
  Forall (fun v => 0 <= v) a -> Forall (fun v => 0 <= v) b ->
  column_total a + column_total b < 2 ^ 63 ->
  column_total (add a b) = column_total a + column_total b /\
  Forall (fun v => 0 <= v) (add a b).
Proof.
  unfold add. revert b. induction a as [|x a IH]; intros [|y b]; simpl;
    try done.
  intros [= Hlen] Ha Hb Hbound.
  apply Forall_cons in Ha as [Hx Ha]. apply Forall_cons in Hb as [Hy Hb].
  assert (0 <= column_total a) as Hta.
  { clear -Ha. induction Ha; simpl; lia. }
  assert (0 <= column_total b) as Htb.
  { clear -Hb. induction Hb; simpl; lia. }
  destruct (IH b Hlen Ha Hb) as [Hsum Hpos]; [unfold column_total in *; lia|].
  rewrite wrap64_small by (unfold column_total in *; lia).
  split; [unfold column_total in *; lia|].
  constructor; [lia | exact Hpos].
Qed.

Lemma total_cons c (df : DataFrame) :
  total (c :: df) = column_total (snd c) + total df.
Proof. reflexivity. Qed.

Lemma get_column_cons name n d (df : DataFrame) :
  get_column name ((n, d) :: df)
  = if String.eqb name n then Some d else get_column name df.
Proof. unfold get_column. simpl. by destruct (String.eqb name n). Qed.

Lemma drop_absent name (df : DataFrame) :
  ~ In name (columns df) -> drop [name] df = df.
Proof.
  intros Hn. unfold drop. induction df as [|[n d] df IH]; [done|].
  cbn [List.filter fst existsb]. rewrite orb_false_r.
  destruct (String.eqb n name) eqn:E.
  - apply String.eqb_eq in E. subst n. exfalso. apply Hn. simpl. by left.
  - simpl. f_equal. apply IH. intros H. apply Hn. simpl. by right.
Qed.

Lemma drop_head_same name d (df : DataFrame) :
  drop [name] ((name, d) :: df) = drop [name] df.
Proof. unfold drop. simpl. by rewrite String.eqb_refl. Qed.

Lemma total_drop_one source sourcedata (df : DataFrame) :
  NoDup (columns df) -> get_column source df = Some sourcedata ->
  total (drop [source] df) = total df - column_total sourcedata.
Proof.
  induction df as [|[n d] df IH]; [done|].
  intros Hnd Hget. simpl in Hnd. apply NoDup_cons in Hnd as [Hn Hnd].
  rewrite get_column_cons in Hget.
  destruct (String.eqb source n) eqn:E.
  - apply String.eqb_eq in E. subst n. injection Hget as ->.
    rewrite drop_head_same, drop_absent, total_cons; [simpl; lia|].
    intros H. apply Hn. by apply list_elem_of_In.
  - apply String.eqb_neq in E.
    rewrite drop_head_other by (intros [H|[]]; congruence).
    rewrite !total_cons, IH by done. lia.
Qed.

Lemma set_column_absent_map name data (df : DataFrame) :
  ~ In name (columns df) ->
  List.map (fun c => if String.eqb name (fst c) then (name, data) else c) df = df.
Proof.
  intros Hn. induction df as [|[n d] df IH]; [done|].
  cbn [List.map fst]. destruct (String.eqb name n) eqn:E.
  - apply String.eqb_eq in E. subst n. exfalso. apply Hn. simpl. by left.
  - f_equal. apply IH. intros H. apply Hn. simpl. by right.
Qed.

Lemma total_set_column sink sinkdata data (df : DataFrame) :
  NoDup (columns df) -> get_column sink df = Some sinkdata ->
  total (set_column sink data df)
  = total df - column_total sinkdata + column_total data.
Proof.
  intros Hnd Hget.
  assert (has_column sink df = true) as Hhas by (apply has_column_get; eauto).
  unfold set_column. rewrite Hhas. clear Hhas.
  induction df as [|[n d] df IH]; [done|].
  simpl in Hnd. apply NoDup_cons in Hnd as [Hn Hnd].
  rewrite get_column_cons in Hget.
  cbn [List.map fst]. destruct (String.eqb sink n) eqn:E.
  - apply String.eqb_eq in E. subst n. injection Hget as ->.
    rewrite set_column_absent_map, !total_cons; [simpl; lia|].
    intros H. apply Hn. by apply list_elem_of_In.
  - rewrite !total_cons, IH by done. lia.
Qed.

Lemma add_length a b :
  List.length a = List.length b -> List.length (add a b) = List.length a.
Proof.
  unfold add. revert b. induction a as [|x a IH]; intros [|y b]; simpl;
    try done.
  intros [= Hlen]. by rewrite IH.
Qed.

Lemma set_column_rows name data (df : DataFrame) (n : nat) :
  Forall (fun c => List.length (snd c) = n) df -> List.length data = n ->
  Forall (fun c => List.length (snd c) = n) (set_column name data df).
Proof.
  intros Hrect Hlen. unfold set_column. destruct (has_column name df).
  - apply Forall_forall. intros c Hc. apply list_elem_of_In in Hc.
    apply in_map_iff in Hc as (c0 & <- & Hc0).
    destruct (String.eqb name (fst c0)); simpl; [done|].
    rewrite Forall_forall in Hrect. apply Hrect. by apply list_elem_of_In.
  - apply Forall_app. split; [done|]. by constructor.
Qed.

Lemma set_column_nonnegative name data (df : DataFrame) :
  nonnegative df -> Forall (fun v => 0 <= v) data ->
  nonnegative (set_column name data df).
Proof.
  unfold nonnegative. intros Hpos Hdata. unfold set_column.
  destruct (has_column name df).
  - apply Forall_forall. intros c Hc. apply list_elem_of_In in Hc.
    apply in_map_iff in Hc as (c0 & <- & Hc0).
    destruct (String.eqb name (fst c0)); simpl; [done|].
    rewrite Forall_forall in Hpos. apply Hpos. by apply list_elem_of_In.
  - apply Forall_app. split; [done|]. by constructor.
Qed.

Lemma column_rows name data (df : DataFrame) (n : nat) :
  Forall (fun c => List.length (snd c) = n) df ->
  get_column name df = Some data -> List.length data = n.
Proof.
  intros Hrect Hget. apply get_column_Some_In in Hget.
  rewrite Forall_forall in Hrect.
  apply (Hrect (name, data)). by apply list_elem_of_In.
Qed.

Lemma column_nonnegative name data (df : DataFrame) :
  nonnegative df -> get_column name df = Some data ->
  Forall (fun v => 0 <= v) data.
Proof.
  unfold nonnegative. intros Hpos Hget. apply get_column_Some_In in Hget.
  rewrite Forall_forall in Hpos.
  apply (Hpos (name, data)). by apply list_elem_of_In.
Qed.

Lemma column_total_nonnegative col :
  Forall (fun v => 0 <= v) col -> 0 <= column_total col.
Proof. induction 1; simpl; [done|]. unfold column_total in *. lia. Qed.

Lemma total_nonnegative (df : DataFrame) : nonnegative df -> 0 <= total df.
Proof.
  unfold nonnegative. induction 1 as [|c df Hc Hdf IH]; [done|].
  rewrite total_cons. apply column_total_nonnegative in Hc. lia.
Qed.

(** Two different columns of a frame without a negative cell hold at most
    the total of the frame between them. *)
Lemma two_columns_within_total source sink sourcedata sinkdata (df : DataFrame) :
  NoDup (columns df) -> nonnegative df -> source <> sink ->
  get_column source df = Some sourcedata ->
  get_column sink df = Some sinkdata ->
  column_total sourcedata + column_total sinkdata <= total df.
Proof.
  intros Hnd Hpos Hne Hs Hk.
  pose proof (total_drop_one source sourcedata df Hnd Hs) as H1.
  assert (NoDup (columns (drop [source] df))) as Hnd1.
  { eapply sublist_NoDup; [exact Hnd|]. apply columns_sublist, drop_sublist. }
  assert (nonnegative (drop [source] df)) as Hpos1.
  { eapply Forall_of_sublist; [apply drop_sublist | exact Hpos]. }
  assert (get_column sink (drop [source] df) = Some sinkdata) as Hk1.
  { rewrite get_column_drop_other by (intros [E|[]]; congruence). exact Hk. }
  pose proof (total_drop_one sink sinkdata _ Hnd1 Hk1) as H2.
  assert (nonnegative (drop [sink] (drop [source] df))) as Hpos2.
  { eapply Forall_of_sublist; [apply drop_sublist | exact Hpos1]. }
  apply total_nonnegative in Hpos2. lia.
Qed.

(** One accepted merge of the manual phase. *)
Lemma manual_merge_step source sink sourcedata sinkdata (df : DataFrame) (n : nat) :
  NoDup (columns df) ->
  Forall (fun c => List.length (snd c) = n) df ->
  source <> sink ->
  get_column source df = Some sourcedata ->
  get_column sink df = Some sinkdata ->
  let df1 := drop [source] (set_column sink (add sinkdata sourcedata) df) in
  (exists q, total df1 = total df + 2 ^ 64 * q) /\
  sublist (columns df1) (columns df) /\
  Forall (fun c => List.length (snd c) = n) df1 /\
  (nonnegative df -> total df < 2 ^ 63 ->
   total df1 = total df /\ nonnegative df1).
Proof.
  intros Hnd Hrect Hne Hs Hk df1. subst df1.
  assert (has_column sink df = true) as Hhas by (apply has_column_get; eauto).
  pose proof (column_rows _ _ _ _ Hrect Hs) as Hls.
  pose proof (column_rows _ _ _ _ Hrect Hk) as Hlk.
  assert (List.length sinkdata = List.length sourcedata) as Hlen by congruence.
  assert (columns (set_column sink (add sinkdata sourcedata) df) = columns df)
    as Hcols by (by apply columns_set_column).
  assert (total (drop [source] (set_column sink (add sinkdata sourcedata) df))
          = total df - column_total sinkdata - column_total sourcedata
            + column_total (add sinkdata sourcedata)) as Htotal.
  { rewrite (total_drop_one source sourcedata).
    - rewrite (total_set_column sink sinkdata) by done. lia.
    - by rewrite Hcols.
    - by rewrite get_column_set_other. }
  split; [|split; [|split]].
  - destruct (column_total_add sinkdata sourcedata Hlen) as [q Hq].
    exists q. lia.
  - rewrite <- Hcols. apply columns_sublist, drop_sublist.
  - eapply Forall_of_sublist; [apply drop_sublist|].
    apply set_column_rows; [done|]. rewrite add_length; congruence.
  - intros Hpos Hbound.
    pose proof (two_columns_within_total _ _ _ _ _ Hnd Hpos Hne Hs Hk) as Hin.
    destruct (add_exact sinkdata sourcedata Hlen) as [Hsum Hposadd];
      [by eapply column_nonnegative | by eapply column_nonnegative | lia |].
    split; [lia|].
    eapply Forall_of_sublist; [apply drop_sublist|].
    by apply set_column_nonnegative.
Qed.

(** X17: on a rectangular matrix with unique column names and pairs of two
    different tags, whatever the operator answers, the columns of the
    returned matrix are columns of the given matrix, it has as many rows,
    and its cells add up to what the cells of the given matrix add up to,
    up to a multiple of 2^64 (the merge adds in int64). When no cell is
    negative and the cells add up to less than 2^63 no addition wraps: the
    returned matrix has no negative cell and exactly the same total, so no
    observation is lost or invented. *)
Theorem manual_deduplication_conserves_total
    (tuples : list (string * string)) (df df' : DataFrame) (c c' : console)
    (n : nat) :
  NoDup (columns df) ->
  Forall (fun col => List.length (snd col) = n) df ->
  Forall (fun p => fst p <> snd p) tuples ->
  manual_deduplication tuples df c = Some (df', c') ->
  (exists q, total df' = total df + 2 ^ 64 * q) /\
  sublist (columns df') (columns df) /\
  Forall (fun col => List.length (snd col) = n) df' /\
  (nonnegative df -> total df < 2 ^ 63 ->
   total df' = total df /\ nonnegative df').
Proof.
  intros Hnd Hrect Hne. revert df c Hnd Hrect.
  induction Hne as [|[source sink] rest Hp Hrest IH]; intros df c Hnd Hrect.
  - simpl. intros [= <- <-].
    split; [exists 0; lia|]. by repeat split.
  - cbn [manual_deduplication]. simpl in Hp.
    destruct (get_column source df) as [sourcedata|] eqn:Hs; [|by apply IH].
    destruct (get_column sink df) as [sinkdata|] eqn:Hk; [|by apply IH].
    destruct (input (merge_prompt source sink) c) as [[line c1]|]; [|done].
    cbn [mbind option_bind].
    destruct (String.eqb (lower line) "y").
    + destruct (manual_merge_step source sink sourcedata sinkdata df n
                  Hnd Hrect Hp Hs Hk) as ([q1 Hq1] & Hsub & Hrows & Hexact).
      intros Hrun. apply IH in Hrun as ([q2 Hq2] & Hsub' & Hrows' & Hexact').
      * split; [exists (q1 + q2); lia|].
        split; [by etransitivity|]. split; [done|].
        intros Hpos Hbound. destruct (Hexact Hpos Hbound) as [E1 Hpos1].
        destruct Hexact' as [E2 Hpos2]; [done | lia |].
        split; [lia | done].
      * by eapply sublist_NoDup.
      * done.
    + destruct (String.eqb (lower line) "n");
        [intros [= <- <-]; split; [exists 0; lia | by repeat split]|].
      destruct (String.eqb (lower line) "q");
        [intros [= <- <-]; split; [exists 0; lia | by repeat split]|].
      by apply IH.
Qed.

Lemma manual_deduplication_conserves_total_witness :
  total [("grow", [1; 0]); ("plants", [1; 2])]
  = total [("grow", [1; 0]); ("plant", [1; 1]); ("plants", [0; 1])].
Proof.
  refine (proj1 (proj2 (proj2 (proj2
            (manual_deduplication_conserves_total
               [("plant", "plants")]
               [("grow", [1; 0]); ("plant", [1; 1]); ("plants", [0; 1])]
               [("grow", [1; 0]); ("plants", [1; 2])]
               (Console ["Y"] [])
               (Console [] ["Merge plant to plants? (y/n): ";
                            "Merged plant to plants"])
               2 _ _ _ _))) _ _)).
  - apply (bool_decide_unpack _). vm_compute. exact I.
  - repeat constructor.
  - repeat constructor. discriminate.
  - reflexivity.
  - repeat constructor; discriminate.
  - reflexivity.
Defined.

(** Where an addition wraps the total is not kept. *)
Example manual_merge_can_wrap :
  manual_deduplication [("plant", "plants")]
    [("plant", [2 ^ 62]); ("plants", [2 ^ 62])] (Console ["y"] [])
  = Some ([("plants", [- 2 ^ 63])],
          Console [] ["Merge plant to plants? (y/n): "; "Merged plant to plants"]).
Proof. reflexivity. Qed.

(** ** Tag grouping *)

Lemma combine_snoc {A B : Type} (idx : list A) (l : list B) n x :
  List.length idx = List.length l ->
  combine (idx ++ [n]) (l ++ [x]) = combine idx l ++ [(n, x)].
Proof.
  revert l. induction idx as [|i idx IH]; intros [|y l]; simpl; try done.
  intros [= Hlen]. by rewrite IH.
Qed.

Lemma enumerate_snoc {A : Type} (l : list A) x :
  enumerate (l ++ [x]) = enumerate l ++ [(List.length l, x)].
Proof.
  unfold enumerate. rewrite length_app. simpl.
  rewrite Nat.add_1_r, seq_S. simpl.
  apply combine_snoc. apply length_seq.
Qed.

Lemma enumerate_In {A : Type} (l : list A) (i : nat) x :
  In (i, x) (enumerate l) <-> l !! i = Some x.
Proof.
  induction l as [|y l IH] using rev_ind.
  - simpl. split; [done | by rewrite lookup_nil].
  - rewrite enumerate_snoc, in_app_iff, IH, lookup_snoc_Some. simpl. split.
    + intros [H|[[= <- <-]|[]]]; [left | by right].
      split; [by eapply lookup_lt_Some | done].
    + intros [[_ H]|[-> ->]]; [by left | right; by left].
Qed.

Lemma enumerate_fst {A : Type} (l : list A) :
  List.map fst (enumerate l) = seq 0 (List.length l).
Proof.
  induction l as [|y l IH] using rev_ind; [done|].
  rewrite enumerate_snoc, map_app, IH, length_app. simpl.
  by rewrite Nat.add_1_r, seq_S.
Qed.

Lemma positions_In k clusters (i : nat) :
  In i (positions k clusters) <-> clusters !! i = Some k.
Proof.
  unfold positions. rewrite in_map_iff. split.
  - intros ([i' c] & E & Hin). simpl in E. subst i'.
    apply filter_In in Hin as [Hin Hc]. simpl in Hc.
    apply Nat.eqb_eq in Hc. subst c. by apply enumerate_In.
  - intros H. exists (i, k). split; [done|].
    apply filter_In. split; [by apply enumerate_In | apply Nat.eqb_refl].
Qed.

Lemma positions_NoDup k clusters : NoDup (positions k clusters).
Proof.
  unfold positions.
  assert (forall l : list (nat * nat), NoDup (List.map fst l) ->
            NoDup (List.map fst (List.filter (fun e => Nat.eqb (snd e) k) l))) as H.
  { induction l as [|e l IH]; simpl; [done|].
    intros Hnd. apply NoDup_cons in Hnd as [Hn Hnd].
    destruct (Nat.eqb (snd e) k); simpl; [|by apply IH].
    apply NoDup_cons. split; [|by apply IH].
    intros Hin. apply Hn. apply list_elem_of_In in Hin.
    apply in_map_iff in Hin as (e' & E & Hin). apply filter_In in Hin as [Hin _].
    apply list_elem_of_In. apply in_map_iff. by exists e'. }
  apply H. rewrite enumerate_fst. apply NoDup_seq.
Qed.

Lemma positions_snoc k clusters c :
  positions k (clusters ++ [c])
  = positions k clusters ++ (if Nat.eqb c k then [List.length clusters] else []).
Proof.
  unfold positions. rewrite enumerate_snoc, List.filter_app, map_app. simpl.
  by destruct (Nat.eqb c k).
Qed.

Lemma grouped_columns_snoc clusters c :
  grouped_columns (clusters ++ [c])
  = dict_append c (List.length clusters) (grouped_columns clusters).
Proof.
  unfold grouped_columns. by rewrite enumerate_snoc, fold_left_app.
Qed.

Lemma dict_get_append k c i d :
  dict_get k (dict_append c i d)
  = if Nat.eqb c k then Some (default [] (dict_get c d) ++ [i])
    else dict_get k d.
Proof.
  induction d as [|[k' v] d IH]; simpl.
  - by destruct (Nat.eqb c k).
  - destruct (Nat.eqb k' c) eqn:E; simpl.
    + apply Nat.eqb_eq in E. subst k'.
      by destruct (Nat.eqb c k).
    + destruct (Nat.eqb k' k) eqn:E'; [|exact IH].
      apply Nat.eqb_eq in E'. subst k'. by rewrite Nat.eqb_sym, E.
Qed.

Lemma dict_append_keys c i d :
  NoDup (List.map fst d) -> NoDup (List.map fst (dict_append c i d)).
Proof.
  induction d as [|[k' v] d IH]; simpl.
  - intros _. apply NoDup_singleton.
  - intros Hnd. apply NoDup_cons in Hnd as [Hn Hnd].
    destruct (Nat.eqb k' c) eqn:E; simpl.
    + apply NoDup_cons. by split.
    + apply NoDup_cons. split; [|by apply IH].
      intros Hin. apply list_elem_of_In in Hin.
      apply in_map_iff in Hin as ([k2 v2] & E2 & Hin). simpl in E2. subst k2.
      assert (dict_get k' (dict_append c i d) <> None) as Hget.
      { clear -Hin. induction (dict_append c i d) as [|[k3 v3] d' IH];
          [done|]. simpl. destruct (Nat.eqb k3 k') eqn:E3; [done|].
        destruct Hin as [[= -> ->]|Hin]; [by rewrite Nat.eqb_refl in E3|].
        by apply IH. }
      rewrite dict_get_append, Nat.eqb_sym, E in Hget.
      apply Hn. clear -Hget. induction d as [|[k3 v3] d IH]; [done|].
      simpl in *. destruct (Nat.eqb k3 k') eqn:E3.
      * apply Nat.eqb_eq in E3. subst. by left.
      * right. by apply IH.
Qed.

Lemma dict_get_In k v d :
  NoDup (List.map fst d) -> (In (k, v) d <-> dict_get k d = Some v).
Proof.
  induction d as [|[k' v'] d IH]; simpl; [done|].
  intros Hnd. apply NoDup_cons in Hnd as [Hn Hnd].
  destruct (Nat.eqb k' k) eqn:E.
  - apply Nat.eqb_eq in E. subst k'. split.
    + intros [[= ->]|Hin]; [done|]. exfalso. apply Hn.
      apply list_elem_of_In. apply in_map_iff. by exists (k, v).
    + intros [= ->]. by left.
  - rewrite <- (IH Hnd). split; [|by right].
    intros [[= -> ->]|Hin]; [by rewrite Nat.eqb_refl in E | done].
Qed.

(** The dict built by the loop: a label is a key exactly when some position
    carries it, and its value is the list of those positions. *)
Lemma grouped_columns_spec clusters :
  NoDup (List.map fst (grouped_columns clusters)) /\
  forall k, dict_get k (grouped_columns clusters)
            = match positions k clusters with
              | [] => None
              | v => Some v
              end.
Proof.
  induction clusters as [|c clusters [IHnd IH]] using rev_ind.
  - split; [constructor | done].
  - rewrite grouped_columns_snoc. split; [by apply dict_append_keys|].
    intros k. rewrite dict_get_append, positions_snoc.
    destruct (Nat.eqb c k) eqn:E.
    + apply Nat.eqb_eq in E. subst k. rewrite IH.
      destruct (positions c clusters); simpl; done.
    + rewrite IH, app_nil_r. done.
Qed.

(** The groups that are kept. *)
Lemma filtered_groups_In clusters g :
  In g (filtered_groups clusters) <->
  exists k, g = positions k clusters /\ (2 <= List.length g)%nat.
Proof.
  destruct (grouped_columns_spec clusters) as [Hnd Hget].
  unfold filtered_groups. rewrite filter_In, in_map_iff. split.
  - intros (([k v] & E & Hin) & Hlen). simpl in E. subst v.
    apply Nat.leb_le in Hlen.
    apply (dict_get_In _ _ _ Hnd) in Hin. rewrite Hget in Hin.
    exists k. split; [|done].
    destruct (positions k clusters); [done | congruence].
  - intros (k & -> & Hlen). split; [|by apply Nat.leb_le].
    exists (k, positions k clusters). split; [done|].
    apply (dict_get_In _ _ _ Hnd). rewrite Hget.
    destruct (positions k clusters); [simpl in Hlen; lia | done].
Qed.

Lemma two_members {A : Type} (l : list A) x y :
  In x l -> In y l -> x <> y -> (2 <= List.length l)%nat.
Proof.
  destruct l as [|a [|b l]]; simpl; [done | | lia].
  intros [<-|[]] [<-|[]]. done.
Qed.

Lemma same_group_same_label clusters (i j : nat) :
  i <> j ->
  (exists g, In g (filtered_groups clusters) /\ In i g /\ In j g) <->
  (exists k, clusters !! i = Some k /\ clusters !! j = Some k).
Proof.
  intros Hij. split.
  - intros (g & Hg & Hi & Hj). apply filtered_groups_In in Hg as (k & -> & _).
    exists k. split; by apply positions_In.
  - intros (k & Hi & Hj). apply positions_In in Hi, Hj.
    exists (positions k clusters). split; [|done].
    apply filtered_groups_In. exists k. split; [done|].
    exact (two_members _ i j Hi Hj Hij).
Qed.

(** X18: the groups of column positions that [group_tags_by_dissimilarity]
    keeps follow the labels of the clustering: a group has at least two
    positions, none twice, and holds exactly the positions of one label; two
    different positions are in a common group exactly when they carry the
    same label; a position is in at most one group. *)
Theorem tag_groups_follow_labels (clusters : list nat) :
  (forall g, In g (filtered_groups clusters) ->
             (2 <= List.length g)%nat /\ NoDup g /\
             exists k, forall i : nat, In i g <-> clusters !! i = Some k) /\
  (forall i j : nat, i <> j ->
     (exists g, In g (filtered_groups clusters) /\ In i g /\ In j g) <->
     (exists k, clusters !! i = Some k /\ clusters !! j = Some k)) /\
  (forall (i : nat) g g',
     In g (filtered_groups clusters) -> In g' (filtered_groups clusters) ->
     In i g -> In i g' -> g = g').
Proof.
  split; [|split].
  - intros g Hg. apply filtered_groups_In in Hg as (k & -> & Hlen).
    split; [done|]. split; [apply positions_NoDup|].
    exists k. intros i. apply positions_In.
  - apply same_group_same_label.
  - intros i g g' Hg Hg' Hi Hi'.
    apply filtered_groups_In in Hg as (k & -> & _).
    apply filtered_groups_In in Hg' as (k' & -> & _).
    apply positions_In in Hi, Hi'. congruence.
Qed.

Lemma tag_groups_follow_labels_witness :
  (exists g, In g (filtered_groups [0; 1; 0; 2; 1]%nat) /\
             In 1%nat g /\ In 4%nat g).
Proof.
  refine (proj2 (proj1 (proj2 (tag_groups_follow_labels [0; 1; 0; 2; 1]%nat))
                   1%nat 4%nat _) _).
  - discriminate.
  - exists 1%nat. split; reflexivity.
Defined.

Lemma mapM_lookup_names (tag_names : list string) (g : list nat) :
  (forall i, In i g -> (i < List.length tag_names)%nat) ->
  mapM (fun col_idx : nat => tag_names !! col_idx) g
  = Some (List.map (fun i : nat => default EmptyString (tag_names !! i)) g).
Proof.
  induction g as [|i g IH]; intros Hlt; [done|].
  cbn [mapM List.map].
  destruct (lookup_lt_is_Some_2 tag_names i) as [t Ht];
    [apply Hlt; by left|].
  rewrite Ht, IH by (intros i' Hi'; apply Hlt; by right). done.
Qed.

Lemma mapM_groups_names (tag_names : list string) (gs : list (list nat)) :
  (forall g i, In g gs -> In i g -> (i < List.length tag_names)%nat) ->
  mapM (mapM (fun col_idx : nat => tag_names !! col_idx)) gs
  = Some (List.map
            (List.map (fun i : nat => default EmptyString (tag_names !! i))) gs).
Proof.
  induction gs as [|g gs IH]; intros Hlt; [done|].
  cbn [mapM List.map].
  rewrite mapM_lookup_names by (intros i Hi; eapply Hlt; [by left | done]).
  rewrite IH by (intros g' i Hg' Hi; eapply Hlt; [by right | done]). done.
Qed.

(** X19: given one label per tag and tag names that are all different,
    [group_tags_by_dissimilarity] returns groups of at least two tag names
    each, and two different tags are listed in a common group exactly when
    the clustering gave them the same label; a tag whose label no other tag
    carries is left out. *)
Theorem group_tags_by_dissimilarity_follows_labels
    (clusters : list nat) (tag_names : list string) :
  List.length tag_names = List.length clusters ->
  NoDup tag_names ->
  exists groups,
    group_tags_by_dissimilarity clusters tag_names = Some groups /\
    Forall (fun g => (2 <= List.length g)%nat) groups /\
    (forall (i j : nat) a b,
        i <> j -> tag_names !! i = Some a -> tag_names !! j = Some b ->
        (exists g, In g groups /\ In a g /\ In b g) <->
        clusters !! i = clusters !! j) /\
    (forall (i : nat) a,
        tag_names !! i = Some a ->
        (exists g, In g groups /\ In a g) <->
        (exists j : nat, j <> i /\ clusters !! j = clusters !! i)).
Proof.
  intros Hlen Hnd.
  set (name := fun i : nat => default EmptyString (tag_names !! i)).
  assert (forall g i, In g (filtered_groups clusters) -> In i g ->
            (i < List.length tag_names)%nat) as Hrange.
  { intros g i Hg Hi. apply filtered_groups_In in Hg as (k & -> & _).
    apply positions_In in Hi. rewrite Hlen. by eapply lookup_lt_Some. }
  exists (List.map (List.map name) (filtered_groups clusters)).
  split; [by apply mapM_groups_names|].
  assert (forall g (i : nat) a, In g (filtered_groups clusters) ->
            tag_names !! i = Some a ->
            (In a (List.map name g) <-> In i g)) as Hmember.
  { intros g i a Hg Hi. rewrite in_map_iff. split.
    - intros (i' & E & Hi'). unfold name in E.
      destruct (lookup_lt_is_Some_2 tag_names i') as [t Ht];
        [by eapply Hrange|].
      rewrite Ht in E. simpl in E. subst t.
      by rewrite (NoDup_lookup _ _ _ _ Hnd Hi Ht).
    - intros Hin. exists i. split; [|done]. unfold name. by rewrite Hi. }
  split; [|split].
  - apply Forall_forall. intros g Hg. apply list_elem_of_In in Hg.
    apply in_map_iff in Hg as (g0 & <- & Hg0). rewrite length_map.
    by apply filtered_groups_In in Hg0 as (k & -> & Hl).
  - intros i j a b Hij Hi Hj.
    destruct (lookup_lt_is_Some_2 clusters i) as [ki Hki];
      [rewrite <- Hlen; by eapply lookup_lt_Some|].
    destruct (lookup_lt_is_Some_2 clusters j) as [kj Hkj];
      [rewrite <- Hlen; by eapply lookup_lt_Some|].
    rewrite Hki, Hkj. split.
    + intros (g & Hg & Ha & Hb). apply in_map_iff in Hg as (g0 & <- & Hg0).
      apply (Hmember g0 i a Hg0 Hi) in Ha. apply (Hmember g0 j b Hg0 Hj) in Hb.
      destruct (proj1 (same_group_same_label clusters i j Hij)) as (k & H1 & H2);
        [by exists g0|]. congruence.
    + intros [= <-].
      destruct (proj2 (same_group_same_label clusters i j Hij))
        as (g0 & Hg0 & H1 & H2); [by exists ki|].
      exists (List.map name g0). split; [apply in_map_iff; by exists g0|].
      split; [exact (proj2 (Hmember g0 i a Hg0 Hi) H1)
             | exact (proj2 (Hmember g0 j b Hg0 Hj) H2)].
  - intros i a Hi.
    destruct (lookup_lt_is_Some_2 clusters i) as [ki Hki];
      [rewrite <- Hlen; by eapply lookup_lt_Some|].
    split.
    + intros (g & Hg & Ha). apply in_map_iff in Hg as (g0 & <- & Hg0).
      apply (Hmember g0 i a Hg0 Hi) in Ha.
      apply filtered_groups_In in Hg0 as (k & -> & Hl).
      pose proof (positions_NoDup k clusters) as Hndp.
      apply positions_In in Ha as Hk.
      destruct (positions k clusters) as [|x [|y l]] eqn:Ep;
        [done | simpl in Hl; lia |].
      assert (In x (positions k clusters) /\ In y (positions k clusters))
        as [Hx Hy] by (rewrite Ep; simpl; tauto).
      apply positions_In in Hx, Hy.
      apply NoDup_cons in Hndp as [Hxy _].
      destruct (decide (x = i)) as [->|Hxi].
      * exists y. split; [|congruence]. intros ->. apply Hxy. by left.
      * exists x. split; [done | congruence].
    + intros (j & Hji & Hj). rewrite Hki in Hj.
      destruct (proj2 (same_group_same_label clusters i j (not_eq_sym Hji)))
        as (g0 & Hg0 & H1 & H2); [by exists ki|].
      exists (List.map name g0). split; [apply in_map_iff; by exists g0|].
      exact (proj2 (Hmember g0 i a Hg0 Hi) H1).
Qed.

Lemma group_tags_by_dissimilarity_follows_labels_witness :
  exists groups,
    group_tags_by_dissimilarity [0; 1; 0; 2; 1]%nat
      ["grow"; "plant"; "growth"; "zebra"; "plants"] = Some groups /\
    Forall (fun g => (2 <= List.length g)%nat) groups.
Proof.
  destruct (group_tags_by_dissimilarity_follows_labels [0; 1; 0; 2; 1]%nat
              ["grow"; "plant"; "growth"; "zebra"; "plants"])
    as (groups & Hrun & Hsize & _).
  - reflexivity.
  - apply (bool_decide_unpack _). vm_compute. exact I.
  - exists groups. split; [exact Hrun | exact Hsize].
Defined.

(** ** Matrix merger: the lenient merge twice *)

(** A pair on which the lenient merge has nothing left to do. *)
Lemma lenient_spent_noop (df : DataFrame) source sink :
  (forall sourcedata sinkdata,
      get_column source df = Some sourcedata ->
      get_column sink df = Some sinkdata -> sourcedata <> sinkdata) ->
  merge_pair "lenient" df (source, sink) = df.
Proof.
  intros H. unfold merge_pair.
  destruct (negb (has_column source df) || negb (has_column sink df)); [done|].
  destruct (get_column source df) as [sourcedata|]; [|done].
  destruct (get_column sink df) as [sinkdata|]; [|done].
  simpl. unfold equals. case_bool_decide as E; [|done].
  by destruct (H sourcedata sinkdata).
Qed.

Lemma lenient_step_spent (df : DataFrame) source sink sourcedata sinkdata :
  get_column source (merge_pair "lenient" df (source, sink)) = Some sourcedata ->
  get_column sink (merge_pair "lenient" df (source, sink)) = Some sinkdata ->
  sourcedata <> sinkdata.
Proof.
  unfold merge_pair.
  destruct (negb (has_column source df) || negb (has_column sink df)) eqn:E.
  - apply orb_true_iff in E as [E|E]; apply negb_true_iff, has_column_false in E;
      congruence.
  - destruct (get_column source df) as [sd|] eqn:Hs; [|congruence].
    destruct (get_column sink df) as [kd|] eqn:Hk; [|congruence].
    simpl. unfold equals. case_bool_decide as Eq.
    + rewrite get_column_drop_same by (by left). done.
    + congruence.
Qed.

Lemma lenient_pairs_are_spent (df : DataFrame) ps :
  NoDup (columns df) ->
  Forall (fun p => forall sourcedata sinkdata,
            get_column (fst p) (deduplicate_dataframe df ps "lenient")
            = Some sourcedata ->
            get_column (snd p) (deduplicate_dataframe df ps "lenient")
            = Some sinkdata ->
            sourcedata <> sinkdata) ps.
Proof.
  revert df. induction ps as [|[source sink] ps IH]; intros df Hnd; [constructor|].
  unfold deduplicate_dataframe. cbn [fold_left].
  set (df1 := merge_pair "lenient" df (source, sink)).
  fold (deduplicate_dataframe df1 ps "lenient").
  assert (NoDup (columns df1)) as Hnd1.
  { eapply sublist_NoDup; [exact Hnd|].
    apply columns_sublist, merge_pair_lenient_sublist. }
  constructor; [|by apply IH].
  cbn [fst snd]. intros sd kd Hs Hk.
  pose proof (deduplicate_lenient_sublist df1 ps) as Hsub.
  apply (get_column_of_sublist _ _ _ _ Hnd1 Hsub) in Hs, Hk.
  by eapply lenient_step_spent.
Qed.

(** X20: with unique column names the lenient merge is idempotent: applying
    the same list of pairs in "lenient" mode to its own result removes no
    further column. *)
Theorem lenient_merge_idempotent
    (df : DataFrame) (pairs_list : list (string * string)) :
  NoDup (columns df) ->
  deduplicate_dataframe (deduplicate_dataframe df pairs_list "lenient")
    pairs_list "lenient"
  = deduplicate_dataframe df pairs_list "lenient".
Proof.
  intros Hnd. pose proof (lenient_pairs_are_spent df pairs_list Hnd) as H.
  generalize dependent (deduplicate_dataframe df pairs_list "lenient").
  intros R H. unfold deduplicate_dataframe.
  induction H as [|[source sink] ps Hp Hps IH]; cbn [fold_left]; [done|].
  by rewrite lenient_spent_noop.
Qed.

Lemma lenient_merge_idempotent_witness :
  deduplicate_dataframe
    (deduplicate_dataframe
       [("grow", [1; 0]); ("grows", [1; 0]); ("growth", [1; 1])]
       [("grow", "grows"); ("grows", "growth")] "lenient")
    [("grow", "grows"); ("grows", "growth")] "lenient"
  = deduplicate_dataframe
      [("grow", [1; 0]); ("grows", [1; 0]); ("growth", [1; 1])]
      [("grow", "grows"); ("grows", "growth")] "lenient".
Proof.
  apply lenient_merge_idempotent.
  apply (bool_decide_unpack _). vm_compute. exact I.
Defined.

(** ** Deduplication orchestrator without the manual phase *)

Lemma calculate_tag_similarity_columns set_iter
    (group_tags : DataFrame -> Q -> option (list (list string)))
    (df : DataFrame) method threshold r :
  (forall d t, (List.length d < 2)%nat -> group_tags d t = None) ->
  calculate_tag_similarity set_iter group_tags df method threshold = Some r ->
  (2 <= List.length df)%nat.
Proof.
  intros Hcontract Hrun. unfold calculate_tag_similarity in Hrun.
  destruct (decide (List.length df < 2)%nat) as [Hlt|]; [|lia].
  by rewrite (Hcontract df threshold Hlt) in Hrun.
Qed.

(** X21: the clustering of scikit-learn raises [ValueError] on a frame with
    fewer than two columns, so the orchestrator raises when fewer than two
    columns of the input matrix have an observation. When a run without the
    manual phase returns, whatever groups the clustering gave in the three
    phases, no value was changed: the matrix returned consists of columns of
    the input matrix, names and values as they were and in their order,
    none of them all zero when the names are unique; it has at least two
    columns, as has the matrix of the strict merge; the console is not
    used. *)
Theorem merge_without_manual_only_removes
    (set_iter : list string -> list string)
    (group_tags : DataFrame -> Q -> option (list (list string)))
    (matrix0 : DataFrame) (threshold : Q) (c : console) :
  (forall df t, (List.length df < 2)%nat -> group_tags df t = None) ->
  ((List.length (drop_0_columns matrix0) < 2)%nat ->
   merge_similar_tags_from_dataframe set_iter group_tags matrix0 threshold
     false c = None) /\
  (forall ph,
     merge_phases set_iter group_tags matrix0 threshold false c = Some ph ->
     merge_similar_tags_from_dataframe set_iter group_tags matrix0 threshold
       false c = Some (matrix_deduplicated_manual ph) /\
     console_after ph = c /\
     sublist (matrix_deduplicated_manual ph) matrix0 /\
     (2 <= List.length (matrix_deduplicated ph))%nat /\
     (2 <= List.length (matrix_deduplicated_manual ph))%nat /\
     (NoDup (columns matrix0) ->
      Forall (fun col => forallb (Z.eqb 0) (snd col) = false)
             (matrix_deduplicated_manual ph))).
Proof.
  intros Hcontract. split.
  - intros Hlt. unfold merge_similar_tags_from_dataframe, merge_phases,
      calculate_tag_similarity.
    by rewrite (Hcontract _ threshold Hlt).
  - intros ph Hrun. unfold merge_similar_tags_from_dataframe.
    rewrite Hrun. split; [done|].
    unfold merge_phases in Hrun.
    destruct (calculate_tag_similarity set_iter group_tags
                (drop_0_columns matrix0) "pairs" threshold) as [r1|];
      [|discriminate].
    cbn [fmap option_fmap option_map mbind option_bind] in Hrun.
    match type of Hrun with
    | context [calculate_tag_similarity _ _ ?d "" _] =>
        destruct (calculate_tag_similarity set_iter group_tags d "" threshold)
          as [r2|] eqn:E2; [|discriminate]
    end.
    cbn [fmap option_fmap option_map mbind option_bind] in Hrun.
    match type of Hrun with
    | context [calculate_tag_similarity _ _ ?d "" _] =>
        destruct (calculate_tag_similarity set_iter group_tags d "" threshold)
          as [r3|] eqn:E3; [|discriminate]
    end.
    simpl in Hrun. injection Hrun as <-. cbn [matrix_deduplicated_manual
      matrix_deduplicated console_after].
    apply calculate_tag_similarity_columns in E2, E3; [|done..].
    match goal with
    | |- context [deduplicate_dataframe (drop_0_columns matrix0) ?ps "lenient"] =>
        pose proof (deduplicate_lenient_sublist (drop_0_columns matrix0) ps)
          as Hsub
    end.
    split; [done|]. split; [|split; [done|split; [done|]]].
    + etransitivity; [exact Hsub | apply drop_sublist].
    + intros Hnd. eapply Forall_of_sublist; [exact Hsub|].
      unfold drop_0_columns. erewrite drop_as_filter.
      * apply Forall_forall. intros col Hcol. apply list_elem_of_In in Hcol.
        apply filter_In in Hcol as [_ Hcol].
        exact (proj1 (negb_true_iff _) Hcol).
      * intros [n data] Hc. simpl. unfold zero_columns, columns.
        rewrite in_map_iff, negb_false_iff. split.
        -- intros ([n' data'] & E & Hin). simpl in E. subst n'.
           apply filter_In in Hin as [Hin Hz]. simpl in Hz.
           apply (get_column_In matrix0 _ _ Hnd) in Hin, Hc. congruence.
        -- intros Hz. exists (n, data). split; [done|].
           apply filter_In. by split.
Qed.

Lemma merge_without_manual_only_removes_witness :
  exists ph,
    merge_phases (fun l => l) example_group_tags example_matrix (6 # 10)
      false (Console [] []) = Some ph /\
    (2 <= List.length (matrix_deduplicated ph))%nat /\
    Forall (fun col => forallb (Z.eqb 0) (snd col) = false)
           (matrix_deduplicated_manual ph).
Proof.
  eexists. split; [vm_compute; reflexivity|].
  assert (forall df t, (List.length df < 2)%nat ->
                       example_group_tags df t = None) as Hcontract.
  { intros df t Hlt. unfold example_group_tags.
    by destruct (Nat.ltb_spec (List.length df) 2); [|lia]. }
  destruct (merge_without_manual_only_removes (fun l => l) example_group_tags
              example_matrix (6 # 10) (Console [] []) Hcontract)
    as [_ Hrun].
  edestruct Hrun as (_ & _ & _ & Hstrict & _ & Hzero);
    [vm_compute; reflexivity|].
  split; [exact Hstrict|]. apply Hzero.
  apply (bool_decide_unpack _). vm_compute. exact I.
Defined.

(** A single observed tag: the clustering refuses the matrix and nothing is
    returned. *)
Example merge_fails_on_a_single_tag :
  merge_similar_tags_from_dataframe (fun l => l) example_group_tags
    [("grow", [1; 0]); ("zebra", [0; 0])] (6 # 10) false (Console [] [])
  = None.
Proof. reflexivity. Qed.

(** ** Variance reducer: bounds of the counts *)

(** X22: [plot_pca_tags] fails on an empty vector of ratios (the
    [ValueError] of [np.argmax]); on any other vector, whatever its values,
    both counts lie between 1 and the number of components; and a level
    that no cumulative value reaches gives the count 1. *)
Theorem component_counts_bounds (explained_variance_ratio : list double)
    (level : double) :
  plot_pca_tags [] = None /\
  (explained_variance_ratio <> [] ->
   exists s,
     plot_pca_tags explained_variance_ratio = Some s /\
     List.length (cumulative_variance s) = List.length explained_variance_ratio /\
     (1 <= num_components_for_80_variance s
        <= List.length explained_variance_ratio)%nat /\
     (1 <= num_components_for_95_variance s
        <= List.length explained_variance_ratio)%nat) /\
  (explained_variance_ratio <> [] ->
   (forall c, In c (cumsum explained_variance_ratio) ->
              double_le level c = false) ->
   num_components_for_variance level (cumsum explained_variance_ratio)
   = Some 1%nat).
Proof.
  assert (explained_variance_ratio <> [] ->
          cumsum explained_variance_ratio <> []) as Hcum.
  { intros Hne E. apply (f_equal (@List.length double)) in E.
    rewrite cumsum_length in E. by destruct explained_variance_ratio. }
  split; [reflexivity|]. split.
  - intros Hne. apply Hcum in Hne as Hne'.
    destruct (num_components_bounds (decimal 80 100) _ Hne') as (k80 & E80 & B80).
    destruct (num_components_bounds (decimal 95 100) _ Hne') as (k95 & E95 & B95).
    rewrite cumsum_length in B80, B95.
    exists (VarianceSummary (cumsum explained_variance_ratio) k80 k95).
    unfold plot_pca_tags. rewrite E80, E95. simpl.
    split; [done|]. split; [apply cumsum_length | done].
  - intros Hne Hnever. apply num_components_not_reached; [by apply Hcum | done].
Qed.

Lemma component_counts_bounds_witness :
  num_components_for_variance (decimal 80 100)
    (cumsum [decimal 1 10; decimal 2 10]) = Some 1%nat.
Proof.
  refine (proj2 (proj2 (component_counts_bounds [decimal 1 10; decimal 2 10]
                          (decimal 80 100))) _ _).
  - discriminate.
  - intros c [<-|[<-|[]]]; vm_compute; reflexivity.
Defined.

(** Whatever reaches 0.95 reaches 0.80. *)
Lemma level_80_below_level_95 c :
  double_le (decimal 95 100) c = true -> double_le (decimal 80 100) c = true.
Proof.
  destruct decimal_literals as (-> & -> & _).
  destruct c as [s|[]| |[] m e]; try done.
  rewrite !double_le_finite. lia.
Qed.

(** X23: when some cumulative value reaches 0.95, the count for 80% is at
    most the count for 95%; when none does, the count for 95% is 1 and can
    lie below the count for 80%. *)
Theorem count_80_at_most_count_95 (explained_variance_ratio : list double)
    (s : variance_summary) :
  plot_pca_tags explained_variance_ratio = Some s ->
  (exists c, In c (cumulative_variance s) /\
             double_le (decimal 95 100) c = true) ->
  (num_components_for_80_variance s <= num_components_for_95_variance s)%nat.
Proof.
  unfold plot_pca_tags. intros Hrun (c & Hc & Hle).
  destruct (num_components_for_variance (decimal 80 100) _) as [k80|] eqn:E80;
    [|done].
  destruct (num_components_for_variance (decimal 95 100) _) as [k95|] eqn:E95;
    [|done].
  simpl in Hrun. injection Hrun as <-. simpl in *.
  set (cum := cumsum explained_variance_ratio) in *.
  unfold num_components_for_variance, argmax in E80, E95.
  set (f80 := List.map (double_le (decimal 80 100)) cum) in *.
  set (f95 := List.map (double_le (decimal 95 100)) cum) in *.
  assert (forall (i : nat), f95 !! i = Some true -> f80 !! i = Some true) as Himp.
  { intros i. unfold f95, f80. change (List.map ?f ?l) with (f <$> l).
    rewrite !list_lookup_fmap. destruct (cum !! i) as [x|]; simpl; [|done].
    intros [= H]. f_equal. by apply level_80_below_level_95. }
  apply list_elem_of_In, list_elem_of_lookup in Hc as [i0 Hi0].
  assert (f95 !! i0 = Some true) as H95.
  { unfold f95. change (List.map ?f ?l) with (f <$> l).
    rewrite list_lookup_fmap, Hi0. simpl. by f_equal. }
  destruct (first_true f95) as [i95|] eqn:F95;
    [|by apply (first_true_None _ i0) in F95].
  destruct (first_true_Some _ _ F95) as [Hi95 _].
  destruct (first_true f80) as [i80|] eqn:F80;
    [|apply (first_true_None _ i95) in F80; by apply Himp in Hi95].
  destruct (first_true_Some _ _ F80) as [_ Hbefore].
  assert (i80 <= i95)%nat.
  { destruct (decide (i95 < i80)%nat) as [Hlt|]; [|lia].
    apply Hbefore in Hlt. apply Himp in Hi95. congruence. }
  destruct f80, f95; try done. simpl in E80, E95.
  injection E80 as <-. injection E95 as <-. lia.
Qed.

Lemma count_80_at_most_count_95_witness :
  (num_components_for_80_variance
     (VarianceSummary [decimal 1 2; decimal 7 8; decimal 1 1] 2 3)
   <= num_components_for_95_variance
        (VarianceSummary [decimal 1 2; decimal 7 8; decimal 1 1] 2 3))%nat.
Proof.
  refine (count_80_at_most_count_95 [decimal 1 2; decimal 3 8; decimal 1 8]
            (VarianceSummary [decimal 1 2; decimal 7 8; decimal 1 1] 2 3) _ _).
  - vm_compute. reflexivity.
  - exists (decimal 1 1). split; [simpl; tauto | vm_compute; reflexivity].
Defined.

(** When 0.95 is not reached the count for 95% falls back to 1. *)
Example count_95_below_count_80 :
  plot_pca_tags [decimal 1 2; decimal 2 5]
  = Some (VarianceSummary [decimal 1 2; decimal 9 10] 2 1).
Proof. vm_compute. reflexivity. Qed.

(** ** Matrix merger: the strict merge on presence data and on a whole list *)

(** X24: on two columns of equal length that hold only 0 and 1 the row loop
    of the strict mode computes the row-wise maximum, the union of the two
    presence columns (where the manual merge adds them up). *)
Theorem strict_rows_is_union_on_presence (sourcedata sinkdata : column) :
  List.length sourcedata = List.length sinkdata ->
  Forall (fun v => v = 0 \/ v = 1) sourcedata ->
  Forall (fun v => v = 0 \/ v = 1) sinkdata ->
  strict_rows sourcedata sinkdata = zip_with Z.max sourcedata sinkdata.
Proof.
  intros Hlen Hs Hk. apply list_eq. intros i.
  destruct (sourcedata !! i) as [s|] eqn:Hi.
  - destruct (lookup_lt_is_Some_2 sinkdata i) as [k Hj];
      [rewrite <- Hlen; by eapply lookup_lt_Some|].
    rewrite (strict_rows_lookup _ _ _ _ _ Hi Hj).
    rewrite lookup_zip_with, Hi, Hj. simpl. f_equal.
    rewrite Forall_forall in Hs, Hk.
    assert (s ∈ sourcedata) as Hs' by (apply list_elem_of_lookup; eauto).
    assert (k ∈ sinkdata) as Hk' by (apply list_elem_of_lookup; eauto).
    destruct (Hs s Hs') as [-> | ->], (Hk k Hk') as [-> | ->]; reflexivity.
  - rewrite lookup_zip_with, Hi. simpl.
    apply lookup_ge_None. rewrite strict_rows_length, <- Hlen.
    by apply lookup_ge_None.
Qed.

Lemma strict_rows_is_union_on_presence_witness :
  strict_rows [1; 0; 0; 1] [0; 0; 1; 1] = zip_with Z.max [1; 0; 0; 1] [0; 0; 1; 1].
Proof.
  apply strict_rows_is_union_on_presence.
  - reflexivity.
  - repeat constructor; tauto.
  - repeat constructor; tauto.
Defined.

Lemma columns_drop_one source (df : DataFrame) :
  columns (drop [source] df)
  = List.filter (fun n => negb (String.eqb n source)) (columns df).
Proof.
  induction df as [|[n d] df IH]; [done|].
  change (columns ((n, d) :: df)) with (n :: columns df).
  cbn [List.filter].
  destruct (String.eqb n source) eqn:E; cbn [negb].
  - apply String.eqb_eq in E. subst n. rewrite drop_head_same. exact IH.
  - apply String.eqb_neq in E.
    rewrite drop_head_other by (intros [H|[]]; congruence).
    change (columns ((n, d) :: drop [source] df))
      with (n :: columns (drop [source] df)).
    f_equal. exact IH.
Qed.

Lemma has_column_In name (df : DataFrame) :
  has_column name df = true <-> In name (columns df).
Proof.
  unfold has_column. rewrite existsb_exists. split.
  - intros (x & Hx & E). apply String.eqb_eq in E. by subst x.
  - intros H. exists name. split; [done | apply String.eqb_refl].
Qed.

(** X25: when the two tags of every pair are columns, no tag is the source
    of two pairs and no sink is also a source (the pairs the deduplicator
    returns for groups without a repeated tag), the strict merge skips no
    pair: it removes exactly the source columns and keeps every other
    column, in order. *)
Theorem strict_merge_removes_exactly_the_sources
    (ps : list (string * string)) :
  forall df : DataFrame,
    NoDup (List.map fst ps) ->
    (forall p, In p ps -> In (fst p) (columns df) /\ In (snd p) (columns df) /\
                          ~ In (snd p) (List.map fst ps)) ->
    columns (deduplicate_dataframe df ps "strict")
    = List.filter (fun n => negb (existsb (String.eqb n) (List.map fst ps)))
                  (columns df).
Proof.
  induction ps as [|[source sink] ps IH]; intros df Hnd Hps.
  - simpl. clear. induction (columns df) as [|n l IH]; simpl; [done|].
    f_equal. exact IH.
  - simpl in Hnd. apply NoDup_cons in Hnd as [Hsrc Hnd].
    destruct (Hps (source, sink)) as (Hs & Hk & Hsink); [by left|].
    simpl in Hs, Hk, Hsink.
    apply has_column_In, has_column_get in Hs as [sourcedata Hs].
    apply has_column_In in Hk as Hhas. apply has_column_get in Hhas as [sinkdata Hk'].
    unfold deduplicate_dataframe. cbn [fold_left].
    rewrite (merge_pair_present _ _ _ _ _ _ Hs Hk'). simpl.
    fold (deduplicate_dataframe
            (drop [source] (set_column sink (strict_rows sourcedata sinkdata) df))
            ps "strict").
    rewrite IH; [|done|].
    + rewrite columns_drop_one, columns_set_column
        by (by apply has_column_In).
      clear. induction (columns df) as [|n l IH]; simpl; [done|].
      rewrite (String.eqb_sym n source).
      destruct (String.eqb source n); simpl; [exact IH|].
      destruct (existsb (String.eqb n) (List.map fst ps)); simpl;
        [exact IH | by rewrite IH].
    + intros p Hp. destruct (Hps p) as (H1 & H2 & H3); [by right|].
      assert (forall n, In n (columns df) -> n <> source ->
                In n (columns (drop [source]
                         (set_column sink (strict_rows sourcedata sinkdata) df))))
        as Hkeep.
      { intros n Hn Hne. rewrite columns_drop_one, columns_set_column
          by (by apply has_column_In).
        apply filter_In. split; [done|].
        apply negb_true_iff, String.eqb_neq. done. }
      split; [|split].
      * apply Hkeep; [done|]. intros E. apply Hsrc. rewrite <- E.
        apply list_elem_of_In. apply in_map_iff. by exists p.
      * apply Hkeep; [done|]. intros E. apply H3. simpl. by left.
      * intros Hin. apply H3. simpl. by right.
Qed.

Lemma strict_merge_removes_exactly_the_sources_witness :
  columns (deduplicate_dataframe
             [("grow", [1; 0]); ("grows", [0; 1]); ("growth", [0; 0]);
              ("plant", [1; 1])]
             [("grow", "growth"); ("grows", "growth")] "strict")
  = ["growth"; "plant"].
Proof.
  refine (strict_merge_removes_exactly_the_sources
            [("grow", "growth"); ("grows", "growth")]
            [("grow", [1; 0]); ("grows", [0; 1]); ("growth", [0; 0]);
             ("plant", [1; 1])] _ _).
  - apply (bool_decide_unpack _). vm_compute. exact I.
  - intros p [<-|[<-|[]]]; simpl; repeat split; try tauto;
      intros [H|[H|[]]]; discriminate.
Defined.

